(** * fetch-utils: a shallow embedding of [src/index.js]

  The module wraps the browser [fetch] API.  Its own code is short; what it
  computes is decided by the platform functions it calls
  ([URLSearchParams], [Headers], [JSON.stringify], [decodeURI], promises).
  The development therefore has three layers:

  - [Str]: helpers on byte strings;
  - [JS]: the fragment of the language and of the platform the module
    relies on, written after ECMA-262 and the WHATWG URL and Fetch
    standards;
  - [FetchUtils]: the functions of [src/index.js], one definition per
    source function, under the source's names;
  - [Spec] and [Samples]: what the specification states over numbers and
    consoles, and a few concrete inputs;
  - the modules of facts, one per part of the source.

  Conventions.  A JavaScript string is modelled by the UTF-8 encoding of
  its text (type [string], a list of bytes).  A Number is modelled by an
  integer [Z], standing for the double nearest to it (NaN and fractions
  are outside the model; an infinity only arises as a product).  An object
  used as a mapping is an association list in the order in which the
  engine enumerates its own properties. *)

From Stdlib Require Import String Ascii List ZArith Lia Bool.
From Stdlib.Strings Require Import Byte.
From Stdlib Require Import DecimalString DecimalPos DecimalZ.
Import ListNotations.

Open Scope string_scope.
Open Scope Z_scope.

Set Warnings "-register-all".

(* ================================================================= *)
(** ** Byte strings *)

Module Str.

Definition chars (s : string) : list ascii := list_ascii_of_string s.

Definition of_chars (l : list ascii) : string := string_of_list_ascii l.

Definition code (c : ascii) : N := N_of_ascii c.

Definition all (p : ascii -> bool) (s : string) : bool := forallb p (chars s).

Definition is_empty (s : string) : bool :=
  match s with EmptyString => true | String _ _ => false end.

(** [Array.prototype.join] on strings. *)
Fixpoint join (sep : string) (l : list string) : string :=
  match l with
  | [] => ""
  | [x] => x
  | x :: rest => x ++ sep ++ join sep rest
  end.

(** [String.prototype.includes]. *)
Fixpoint includes (s sub : string) : bool :=
  String.prefix sub s
  || match s with
     | EmptyString => false
     | String _ rest => includes rest sub
     end.

Definition in_range (lo hi : N) (c : ascii) : bool :=
  (N.leb lo (code c) && N.leb (code c) hi)%bool.

Definition is_digit (c : ascii) : bool := in_range 48 57 c.
Definition is_upper (c : ascii) : bool := in_range 65 90 c.
Definition is_lower (c : ascii) : bool := in_range 97 122 c.
Definition is_alnum (c : ascii) : bool :=
  (is_digit c || is_upper c || is_lower c)%bool.

Definition one_of (set : string) (c : ascii) : bool :=
  existsb (Ascii.eqb c) (chars set).

(** ASCII lower-casing, the byte-lowercase of the Fetch standard. *)
Definition lower_char (c : ascii) : ascii :=
  if is_upper c then ascii_of_N (code c + 32) else c.

Definition lower (s : string) : string := of_chars (map lower_char (chars s)).

Definition eq_nocase (a b : string) : bool := String.eqb (lower a) (lower b).

Definition hex_digit_upper (n : N) : ascii :=
  if N.ltb n 10 then ascii_of_N (48 + n) else ascii_of_N (55 + n).

Definition hex_digit_lower (n : N) : ascii :=
  if N.ltb n 10 then ascii_of_N (48 + n) else ascii_of_N (87 + n).

(** Value of a hexadecimal digit, in either case. *)
Definition hex_value (c : ascii) : option N :=
  if is_digit c then Some (code c - 48)%N
  else if in_range 65 70 c then Some (code c - 55)%N
  else if in_range 97 102 c then Some (code c - 87)%N
  else None.

(** Plain decimal rendering of an integer. *)
Definition of_Z (z : Z) : string := NilZero.string_of_int (Z.to_int z).

Definition quote_char : ascii := ascii_of_nat 34.
Definition backslash : ascii := ascii_of_nat 92.

End Str.

(* ================================================================= *)
(** ** The language and platform fragment *)

Module JS.

(** *** Values *)

Inductive value : Type :=
| Undefined
| Null
| Bool (b : bool)
| Num (z : Z)
| Text (s : string)
| Arr (items : list value)
| Obj (props : list (string * value)).

(** A plain object used as a mapping: own enumerable properties in
    enumeration order. *)
Definition object : Type := list (string * value).

Definition Object_keys (o : object) : list string := map fst o.

(** Property read [o[k]]: [undefined] when the property is absent. *)
Fixpoint get (o : object) (k : string) : value :=
  match o with
  | [] => Undefined
  | (k', v) :: rest => if String.eqb k' k then v else get rest k
  end.

(** ToBoolean. *)
Definition truthy (v : value) : bool :=
  match v with
  | Undefined | Null => false
  | Bool b => b
  | Num z => negb (z =? 0)
  | Text s => negb (Str.is_empty s)
  | Arr _ | Obj _ => true
  end.

(** *** Numbers

    [Num z] stands for the double nearest to the integer [z], which is [z]
    itself up to 2^53 in magnitude. *)

(** Rounding a magnitude to 53 significant bits, ties to even. *)
Definition round_magnitude (a : Z) : Z :=
  if a <? 2 ^ 53 then a
  else
    let e := Z.log2 a - 52 in
    let q := a / 2 ^ e in
    let r := a - q * 2 ^ e in
    let half := 2 ^ (e - 1) in
    let q' := if r <? half then q
              else if half <? r then q + 1
              else if Z.even q then q else q + 1 in
    q' * 2 ^ e.

(** The double nearest to an integer; [None] is an infinity, of the sign of
    the integer. *)
Definition round_double (z : Z) : option Z :=
  let m := round_magnitude (Z.abs z) in
  if m <? 2 ^ 1024 then Some (Z.sgn z * m) else None.

(** The product of two integer-valued doubles. *)
Definition Number_times (a b : Z) : option Z := round_double (a * b).

(** ToInt32 of a finite integer; an infinity converts to 0. *)
Definition ToInt32 (x : option Z) : Z :=
  match x with
  | Some z => (z + 2 ^ 31) mod 2 ^ 32 - 2 ^ 31
  | None => 0
  end.

(** Number of decimal digits of a positive integer. *)
Definition decimal_digits (v : Z) : Z :=
  Z.of_nat (String.length (Str.of_Z v)).

(** The shortest digits that read back as the double [v] (a positive
    integer of at least 2^53): the search of Number::toString for the least
    number [k] of digits, and among the candidates of that length the one
    nearest to [v], the even one on a tie.  The result is the digits and the
    decimal exponent. *)
Definition shortest_candidate (v lo hi : Z) (inclusive : bool) (n k : Z)
  : option (Z * Z) :=
  let p := 10 ^ (n - k) in
  let s_lo := if inclusive then (lo + p - 1) / p else lo / p + 1 in
  let s_hi := if inclusive then hi / p else (hi + p - 1) / p - 1 in
  if s_hi <? s_lo then None
  else
    let c1 := v / p in
    let c2 := c1 + 1 in
    let ok c := ((s_lo <=? c) && (c <=? s_hi))%bool in
    let d1 := v - c1 * p in
    let d2 := c2 * p - v in
    let s := if negb (ok c2) then c1
             else if negb (ok c1) then c2
             else if d1 <? d2 then c1
             else if d2 <? d1 then c2
             else if Z.even c1 then c1 else c2 in
    if s =? 10 ^ k then Some (1, n) else Some (s, n - 1).

Fixpoint shortest_search (fuel : nat) (v lo hi : Z) (inclusive : bool)
  (n k : Z) : Z * Z :=
  match fuel with
  | O => (v, n - 1)
  | S fuel' =>
      match shortest_candidate v lo hi inclusive n k with
      | Some found => found
      | None => shortest_search fuel' v lo hi inclusive n (k + 1)
      end
  end.

Definition shortest_digits (v : Z) : Z * Z :=
  let e := Z.log2 v - 52 in
  let m := v / 2 ^ e in
  let half := 2 ^ (e - 1) in
  let below := if m =? 2 ^ 52 then 2 ^ (e - 2) else half in
  shortest_search 17 v (v - below) (v + half) (Z.even m) (decimal_digits v) 1.

(** The exponent form [d.ddde+x] of Number::toString. *)
Definition exponent_form (digits exponent : Z) : string :=
  match Str.of_Z digits with
  | EmptyString => EmptyString
  | String d EmptyString => String d ("e+" ++ Str.of_Z exponent)
  | String d more => String d ("." ++ more ++ "e+" ++ Str.of_Z exponent)
  end.

(** Number::toString on a positive double that is an integer. *)
Definition Number_toString_positive (v : Z) : string :=
  if v <? 10 ^ 21 then Str.of_Z v
  else let (digits, exponent) := shortest_digits v in
       exponent_form digits exponent.

(** Number::toString, radix 10. *)
Definition Number_toString (z : Z) : string :=
  if Z.abs z <? 2 ^ 53 then Str.of_Z z
  else
    match round_double z with
    | None => if z <? 0 then "-Infinity" else "Infinity"
    | Some v =>
        if v <? 0 then "-" ++ Number_toString_positive (- v)
        else Number_toString_positive v
    end.

(** ToString.  An array prints as its elements joined by commas, with
    [undefined] and [null] elements printed as the empty string. *)
Fixpoint ToString (v : value) : string :=
  match v with
  | Undefined => "undefined"
  | Null => "null"
  | Bool true => "true"
  | Bool false => "false"
  | Num z => Number_toString z
  | Text s => s
  | Arr items =>
      Str.join ","
        (map (fun x => match x with
                       | Undefined | Null => ""
                       | _ => ToString x
                       end) items)
  | Obj _ => "[object Object]"
  end.

(** ToString of an array of strings, as [Object.keys] returns. *)
Definition Array_toString (keys : list string) : string :=
  ToString (Arr (map Text keys)).

(** *** Exceptions and promises *)

(** What the module's code can throw or see rejected: a string (thrown by
    [interceptors]) or an error object with its [name] and [message]
    (a [TypeError], a [URIError], a [SyntaxError], the [AbortError] of an
    aborted request). *)
Inductive thrown : Type :=
| ThrowText (s : string)
| ThrowError (name message : string).

(** The outcome of evaluating an expression. *)
Inductive completion (A : Type) : Type :=
| Normal (a : A)
| Throw (e : thrown).

Arguments Normal {A} a.
Arguments Throw {A} e.

Definition bind {A B} (c : completion A) (k : A -> completion B)
  : completion B :=
  match c with
  | Normal a => k a
  | Throw e => Throw e
  end.

(** A promise, observed once it has settled. *)
Inductive settled (A : Type) : Type :=
| Fulfilled (a : A)
| Rejected (e : thrown).

Arguments Fulfilled {A} a.
Arguments Rejected {A} e.

(** The message of a platform error is implementation-defined; no code of the
    module reads the message of an error raised by these functions. *)
Definition TypeError (what : string) : thrown := ThrowError "TypeError" what.
Definition URIError : thrown := ThrowError "URIError" "URI malformed".

(** *** JSON.stringify *)

Definition json_escape (c : ascii) : list ascii :=
  let n := Str.code c in
  if Ascii.eqb c Str.quote_char then [Str.backslash; Str.quote_char]
  else if Ascii.eqb c Str.backslash then [Str.backslash; Str.backslash]
  else if N.eqb n 8 then [Str.backslash; "b"%char]
  else if N.eqb n 9 then [Str.backslash; "t"%char]
  else if N.eqb n 10 then [Str.backslash; "n"%char]
  else if N.eqb n 12 then [Str.backslash; "f"%char]
  else if N.eqb n 13 then [Str.backslash; "r"%char]
  else if N.ltb n 32 then
    [Str.backslash; "u"%char; "0"%char; "0"%char;
     Str.hex_digit_lower (n / 16); Str.hex_digit_lower (n mod 16)]
  else [c].

Definition QuoteJSONString (s : string) : string :=
  String Str.quote_char
    (Str.of_chars (flat_map json_escape (Str.chars s))
     ++ String Str.quote_char "").

(** SerializeJSONProperty: [None] stands for [undefined].  A property whose
    value serializes to [undefined] is left out of an object and printed as
    [null] in an array. *)
Fixpoint SerializeJSONProperty (v : value) : option string :=
  match v with
  | Undefined => None
  | Null => Some "null"
  | Bool true => Some "true"
  | Bool false => Some "false"
  | Num z => Some (Number_toString z)
  | Text s => Some (QuoteJSONString s)
  | Arr items =>
      Some ("[" ++ Str.join ","
                     (map (fun x => match SerializeJSONProperty x with
                                    | Some s => s
                                    | None => "null"
                                    end) items)
            ++ "]")
  | Obj props =>
      Some ("{" ++ Str.join ","
                     (flat_map
                        (fun kv =>
                           match kv with
                           | (k, x) =>
                               match SerializeJSONProperty x with
                               | Some s => [QuoteJSONString k ++ ":" ++ s]
                               | None => []
                               end
                           end) props)
            ++ "}")
  end.

Definition JSON_stringify (v : value) : value :=
  match SerializeJSONProperty v with
  | Some s => Text s
  | None => Undefined
  end.

(** *** URLSearchParams *)

(** The application/x-www-form-urlencoded byte serializer: alphanumerics and
    [*-._] are kept, a space becomes [+], any other byte is percent-encoded
    in upper-case hexadecimal. *)
Definition urlencoded_byte (c : ascii) : list ascii :=
  if (Str.is_alnum c || Str.one_of "*-._" c)%bool then [c]
  else if Ascii.eqb c " "%char then ["+"%char]
  else ["%"%char; Str.hex_digit_upper (Str.code c / 16);
        Str.hex_digit_upper (Str.code c mod 16)].

Definition urlencoded (s : string) : string :=
  Str.of_chars (flat_map urlencoded_byte (Str.chars s)).

(** The list of name-value pairs of a [URLSearchParams] object. *)
Definition URLSearchParams : Type := list (string * string).

(** [new URLSearchParams(init)] for a record [init]: one pair per own
    property, in order, the value converted by ToString.  Nothing is left
    out: an [undefined] value becomes the text [undefined]. *)
Definition URLSearchParams_new (init : object) : URLSearchParams :=
  map (fun kv => (fst kv, ToString (snd kv))) init.

Definition URLSearchParams_pair (kv : string * string) : string :=
  urlencoded (fst kv) ++ "=" ++ urlencoded (snd kv).

Definition URLSearchParams_toString (l : URLSearchParams) : string :=
  Str.join "&" (map URLSearchParams_pair l).

(** *** Headers *)

(** A header list: name-value pairs in the order they were appended. *)
Definition Headers : Type := list (string * string).

Definition is_tchar (c : ascii) : bool :=
  (Str.is_alnum c || Str.one_of "!#$%&'*+-.^_`|~" c)%bool.

(** A header name is a non-empty token. *)
Definition is_header_name (s : string) : bool :=
  (negb (Str.is_empty s) && Str.all is_tchar s)%bool.

Definition is_http_whitespace (c : ascii) : bool :=
  let n := Str.code c in
  (N.eqb n 9 || N.eqb n 10 || N.eqb n 13 || N.eqb n 32)%bool.

Fixpoint strip_leading (l : list ascii) : list ascii :=
  match l with
  | [] => []
  | c :: rest => if is_http_whitespace c then strip_leading rest else l
  end.

(** Normalizing a value strips leading and trailing HTTP whitespace. *)
Definition normalize_value (s : string) : string :=
  Str.of_chars (rev (strip_leading (rev (strip_leading (Str.chars s))))).

(** A (normalized) header value has no NUL, LF or CR byte. *)
Definition is_header_value (s : string) : bool :=
  Str.all (fun c => let n := Str.code c in
                    negb (N.eqb n 0 || N.eqb n 10 || N.eqb n 13)) s.

(** Conversion to ByteString fails on a code point above U+00FF, that is,
    in UTF-8, on a lead byte of 0xC4 or more. *)
Definition is_ByteString (s : string) : bool :=
  Str.all (fun c => N.ltb (Str.code c) 196) s.

Definition header_names_match (name : string) (kv : string * string) : bool :=
  Str.eq_nocase (fst kv) name.

(** [Headers.prototype.append] (guard none): a TypeError unless [name] is a
    header name and the normalized [value] a header value; the pair is
    added at the end, under the spelling of the first header of the same
    name when there is one. *)
Definition Headers_append (h : Headers) (name value : string)
  : completion Headers :=
  if negb (is_ByteString name && is_ByteString value) then
    Throw (TypeError "Headers.append: not a ByteString")
  else
    let v := normalize_value value in
    if negb (is_header_name name) then
      Throw (TypeError "Headers.append: invalid name")
    else if negb (is_header_value v) then
      Throw (TypeError "Headers.append: invalid value")
    else
      let name' := match find (header_names_match name) h with
                   | Some kv => fst kv
                   | None => name
                   end in
      Normal (h ++ [(name', v)])%list.

(** [new Headers(init)] for a record [init]. *)
Fixpoint Headers_fill (h : Headers) (init : list (string * string))
  : completion Headers :=
  match init with
  | [] => Normal h
  | (k, v) :: rest => bind (Headers_append h k v) (fun h' => Headers_fill h' rest)
  end.

Definition Headers_new (init : list (string * string)) : completion Headers :=
  Headers_fill [] init.

(** [Headers.prototype.get]: [null] when no header has that name, else the
    values of the headers of that name joined by a comma and a space. *)
Definition Headers_get (h : Headers) (name : string) : completion value :=
  if negb (is_ByteString name && is_header_name name) then
    Throw (TypeError "Headers.get: invalid name")
  else
    match filter (header_names_match name) h with
    | [] => Normal Null
    | found => Normal (Text (Str.join ", " (map snd found)))
    end.

(** *** decodeURI *)

Definition hex_byte (h1 h2 : ascii) : option N :=
  match Str.hex_value h1, Str.hex_value h2 with
  | Some a, Some b => Some (16 * a + b)%N
  | _, _ => None
  end.

(** Characters whose escapes [decodeURI] leaves in place. *)
Definition uri_reserved_or_hash (c : ascii) : bool :=
  Str.one_of ";/?:@&=+$,#" c.

(** Number of bytes announced by the lead byte of a multi-byte sequence. *)
Definition utf8_sequence_length (b : N) : option nat :=
  if N.ltb b 192 then None
  else if N.ltb b 224 then Some 2%nat
  else if N.ltb b 240 then Some 3%nat
  else if N.ltb b 248 then Some 4%nat
  else None.

Definition between (lo hi b : N) : bool := (N.leb lo b && N.leb b hi)%bool.

(** Well-formed UTF-8 encodings of one code point. *)
Definition utf8_well_formed (octets : list N) : bool :=
  match octets with
  | [b0; b1] => (between 194 223 b0 && between 128 191 b1)%bool
  | [b0; b1; b2] =>
      ((N.eqb b0 224 && between 160 191 b1
        || between 225 236 b0 && between 128 191 b1
        || N.eqb b0 237 && between 128 159 b1
        || between 238 239 b0 && between 128 191 b1)
       && between 128 191 b2)%bool
  | [b0; b1; b2; b3] =>
      ((N.eqb b0 240 && between 144 191 b1
        || between 241 243 b0 && between 128 191 b1
        || N.eqb b0 244 && between 128 143 b1)
       && between 128 191 b2 && between 128 191 b3)%bool
  | _ => false
  end.

(** The Decode operation of ECMA-262 on the characters of the string.
    [pending] holds the bytes of a multi-byte sequence read so far and
    [need] the number of escapes still to come for it.  [None] is a
    URIError. *)
Fixpoint Decode (pending : list N) (need : nat) (l : list ascii)
  : option (list ascii) :=
  match l with
  | [] => match need with O => Some [] | S _ => None end
  | c :: rest =>
      if Ascii.eqb c "%"%char then
        match rest with
        | h1 :: h2 :: rest' =>
            match hex_byte h1 h2 with
            | None => None
            | Some b =>
                match need with
                | O =>
                    if N.ltb b 128 then
                      if uri_reserved_or_hash (ascii_of_N b)
                      then option_map (fun r => c :: h1 :: h2 :: r)
                                      (Decode [] 0 rest')
                      else option_map (cons (ascii_of_N b)) (Decode [] 0 rest')
                    else
                      match utf8_sequence_length b with
                      | None => None
                      | Some n => Decode [b] (Nat.pred n) rest'
                      end
                | S need' =>
                    let octets := (pending ++ [b])%list in
                    match need' with
                    | O =>
                        if utf8_well_formed octets
                        then option_map (app (map ascii_of_N octets))
                                        (Decode [] 0 rest')
                        else None
                    | S _ => Decode octets need' rest'
                    end
                end
            end
        | _ => None
        end
      else
        match need with
        | O => option_map (cons c) (Decode [] 0 rest)
        | S _ => None
        end
  end.

(** [decodeURI(x)]: the argument is converted by ToString first. *)
Definition decodeURI (x : value) : completion string :=
  match Decode [] 0 (Str.chars (ToString x)) with
  | Some l => Normal (Str.of_chars l)
  | None => Throw URIError
  end.

(** *** Blob *)

(** The [type] of [new Blob(parts, { type: t })]: empty when [t] is
    [undefined] (the member is then missing) or has a character outside
    U+0020..U+007E, otherwise the text of [t] in ASCII lower case. *)
Definition Blob_type (t : value) : string :=
  match t with
  | Undefined => ""
  | _ =>
      if Str.all (Str.in_range 32 126) (ToString t)
      then Str.lower (ToString t)
      else ""
  end.

(** *** Promise reactions

    [W] is the state the handlers act on.  A handler returns a plain value
    or a promise, which the derived promise then follows. *)

Inductive returned (A : Type) : Type :=
| Value (v : A)
| Promise (p : settled A).

Arguments Value {A} v.
Arguments Promise {A} p.

Section Reactions.

Variable W : Type.

Definition handler (A B : Type) : Type :=
  A -> W -> W * completion (returned B).

(** How the promise derived by [then] or [catch] settles once its handler
    has run. *)
Definition settle {B} (r : W * completion (returned B)) : W * settled B :=
  match r with
  | (w, Normal (Value v)) => (w, Fulfilled v)
  | (w, Normal (Promise q)) => (w, q)
  | (w, Throw e) => (w, Rejected e)
  end.

(** [p.then(f)]. *)
Definition promise_then {A B} (p : settled A) (f : handler A B) (w : W)
  : W * settled B :=
  match p with
  | Fulfilled a => settle (f a w)
  | Rejected e => (w, Rejected e)
  end.

(** [p.catch(f)]. *)
Definition promise_catch {A} (p : settled A) (f : handler thrown A) (w : W)
  : W * settled A :=
  match p with
  | Fulfilled a => (w, Fulfilled a)
  | Rejected e => settle (f e w)
  end.

End Reactions.

Arguments settle {W B} r.
Arguments promise_then {W A B} p f w.
Arguments promise_catch {W A} p f w.

End JS.

(* ================================================================= *)
(** ** The module [src/index.js] *)

Module FetchUtils.

Import JS.

(** *** What a call acts on *)

Inductive log_arg : Type :=
| LogText (s : string)
| LogThrown (e : thrown).

Inductive log_entry : Type :=
| ConsoleInfo (args : list log_arg)
| ConsoleError (args : list log_arg).

(** A timer armed to run [() => controller.abort()], for the controller of
    the call, after [ms] milliseconds. *)
Inductive timer : Type :=
| AbortAfter (ms : Z).

(** The options object handed to [fetch].  [opt_signal] tells whether the
    signal of the call's abort controller is attached; [opt_body] is [None]
    when the object has no [body] property. *)
Record RequestInit : Type := {
  opt_method : string;
  opt_headers : Headers;
  opt_signal : bool;
  opt_credentials : string;
  opt_body : option value;
  opt_responseType : option string
}.

(** A response, with what its [json()] and [arrayBuffer()] promises settle
    to. *)
Record Response : Type := {
  res_status : Z;
  res_ok : bool;
  res_headers : Headers;
  res_json : settled value;
  res_arrayBuffer : settled (list byte)
}.

(** A file handed to the browser by a click on a temporary link:
    [link.download], and the bytes and the type of the blob behind
    [link.href]. *)
Record download : Type := {
  file_name : string;
  file_bytes : list byte;
  file_type : string
}.

Record world : Type := {
  console : list log_entry;
  timers : list timer;
  requests : list (string * RequestInit);
  downloads : list download;
  clock : Z
}.

Definition console_log (e : log_entry) (w : world) : world :=
  {| console := console w ++ [e]; timers := timers w;
     requests := requests w; downloads := downloads w; clock := clock w |}.

(** The delay [setTimeout] arms a timer with: its argument converted to a
    [long] (ToInt32), and 0 when that is negative. *)
Definition timer_delay (delay : option Z) : Z := Z.max 0 (ToInt32 delay).

(** [setTimeout(callback, delay)]; [arm] is the timer the callback makes
    for a delay. *)
Definition setTimeout (arm : Z -> timer) (delay : option Z) (w : world)
  : world :=
  {| console := console w; timers := timers w ++ [arm (timer_delay delay)];
     requests := requests w; downloads := downloads w; clock := clock w |}.

Definition record_request (u : string) (o : RequestInit) (w : world) : world :=
  {| console := console w; timers := timers w;
     requests := requests w ++ [(u, o)]; downloads := downloads w;
     clock := clock w |}.

Definition save_file (d : download) (w : world) : world :=
  {| console := console w; timers := timers w;
     requests := requests w; downloads := downloads w ++ [d];
     clock := clock w |}.

(** The [params] argument of the three exported functions.  [p_query] and
    [p_headers] are [None] when the property is missing (or otherwise
    falsy), [p_data] is [Undefined] when missing, [p_timeout] is [None]
    when missing. *)
Record Params : Type := {
  p_query : option object;
  p_data : value;
  p_headers : option object;
  p_timeout : option Z
}.

Definition default {A} (d : A) (o : option A) : A :=
  match o with Some a => a | None => d end.

Definition with_body (o : RequestInit) (b : value) : RequestInit :=
  {| opt_method := opt_method o; opt_headers := opt_headers o;
     opt_signal := opt_signal o; opt_credentials := opt_credentials o;
     opt_body := Some b; opt_responseType := opt_responseType o |}.

Definition with_headers (o : RequestInit) (h : Headers) : RequestInit :=
  {| opt_method := opt_method o; opt_headers := h;
     opt_signal := opt_signal o; opt_credentials := opt_credentials o;
     opt_body := opt_body o; opt_responseType := opt_responseType o |}.

(** *** Private helpers (lines 2-33) *)

Definition baseURL : string := "".

(** [headers(init = {})]. *)
Definition headers (init : option (list (string * string)))
  : completion Headers :=
  Headers_new (default [] init).

(** [paramsFormat(json)]. *)
Definition paramsFormat (json : object) : string :=
  URLSearchParams_toString (URLSearchParams_new json).

(** The table of [interceptors]; its keys are the property names the
    engine gives to the numeric literals. *)
Definition errCodes : list (string * string) :=
  [ ("400", "请求参数错误");
    ("403", "无权访问");
    ("404", "资源不存在");
    ("413", "请求文件过大");
    ("500", "服务器内部错误") ].

(** [errCodes[k]] under the guard [errCodes.hasOwnProperty(k)]: [Some]
    exactly when the table has the property. *)
Fixpoint own_property (table : list (string * string)) (k : string)
  : option string :=
  match table with
  | [] => None
  | (k', m) :: rest => if String.eqb k' k then Some m else own_property rest k
  end.

(** [interceptors(res)]: the [json()] promise of a response with a truthy
    status and [ok]; otherwise the message of the table is thrown, after a
    console line for 403; otherwise [undefined]. *)
Definition interceptors : handler world Response value :=
  fun res w =>
    if (truthy (Num (res_status res)) && res_ok res)%bool then
      (w, Normal (Promise (res_json res)))
    else
      let w1 := if res_status res =? 403
                then console_log (ConsoleInfo [LogText "无权访问"]) w
                else w in
      match own_property errCodes (ToString (Num (res_status res))) with
      | Some message => (w1, Throw (ThrowText message))
      | None => (w1, Normal (Value Undefined))
      end.

(** The loop the three functions run over [params.headers] (lines 65-70,
    111-116, 149-154): every iteration appends under the name [keys], the
    whole array of keys, which [append] converts to a string. *)
Fixpoint forEach_append (keys : list string) (hs : object)
  (items : list string) (h : Headers) : completion Headers :=
  match items with
  | [] => Normal h
  | item :: rest =>
      bind (Headers_append h (Array_toString keys) (ToString (get hs item)))
           (forEach_append keys hs rest)
  end.

Definition append_params_headers (hs : option object) (h : Headers)
  : completion Headers :=
  match hs with
  | None => Normal h
  | Some o => let keys := Object_keys o in forEach_append keys o keys h
  end.

(** [p.then(res => { return interceptors(res) }).catch(on_error)], the chain
    of lines 77-86 and 119-124. *)
Definition intercepted (on_error : handler world thrown value)
  (p : settled Response) (w : world) : world * settled value :=
  let (w, p') := promise_then p interceptors w in
  promise_catch p' on_error w.

(** *** The exported functions (lines 42-181) *)

Section Exported.

(** The network: what the promise returned by [fetch(reqUrl, options)]
    settles to, for every request. *)
Variable fetch : string -> RequestInit -> settled Response.

(** Default value of [params] in [fetchRequest] (line 45). *)
Definition fetchRequest_params : Params :=
  {| p_query := Some []; p_data := Obj []; p_headers := Some [];
     p_timeout := Some 10 |}.

(** Default value of [params] in [fetchFormData] and [fetchDownloadBlob]
    (lines 99 and 136). *)
Definition transfer_params : Params :=
  {| p_query := Some []; p_data := Undefined; p_headers := Some [];
     p_timeout := None |}.

(** Lines 58-61: the query string is added, after a question mark, when it
    is not empty. *)
Definition fetchRequest_url (url : string) (params : Params) : string :=
  match p_query params with
  | Some q =>
      let queryString := paramsFormat q in
      url ++ (if truthy (Text queryString) then "?" ++ queryString
              else queryString)
  | None => url
  end.

(** Lines 48-57 and 62-70: the options object. *)
Definition fetchRequest_options (method : string) (params : Params)
  : completion RequestInit :=
  bind (headers (Some [("content-Type", "application/json")])) (fun h0 =>
  let options :=
    {| opt_method := method; opt_headers := h0; opt_signal := true;
       opt_credentials := "same-origin"; opt_body := None;
       opt_responseType := None |} in
  let options :=
    if (negb (String.eqb method "get") && truthy (p_data params))%bool
    then with_body options (JSON_stringify (p_data params))
    else options in
  bind (append_params_headers (p_headers params) (opt_headers options))
       (fun h => Normal (with_headers options h))).

(** Line 71: [params.timeout || 10]. *)
Definition fetchRequest_timeout (params : Params) : Z :=
  match p_timeout params with
  | Some t => if truthy (Num t) then t else 10
  | None => 10
  end.

(** Lines 72-74. *)
Definition fetchRequest_timer (params : Params) (w : world) : world :=
  let timeout := fetchRequest_timeout params in
  if timeout >? 0 then setTimeout AbortAfter (Number_times timeout 1000) w
  else w.

(** Lines 80-86.  A thrown string has no [message]. *)
Definition fetchRequest_catch (reqUrl : string) : handler world thrown value :=
  fun error w =>
    let aborted :=
      match error with
      | ThrowError _ message =>
          Str.includes message "The user aborted a request"
      | ThrowText _ => false
      end in
    if aborted
    then (console_log (ConsoleError [LogText "请求超时: "; LogText reqUrl]) w,
          Normal (Value Undefined))
    else (console_log (ConsoleError [LogText "请求错误: "; LogThrown error]) w,
          Normal (Value Undefined)).

(** [fetchRequest(url = '', method = 'get', params = {...})].  An argument
    is [None] when the caller leaves it out.  The result is the promise the
    call returns, or what the call throws before it has one. *)
Definition fetchRequest (url method : option string) (params : option Params)
  (w : world) : world * completion (settled value) :=
  let url := default "" url in
  let method := default "get" method in
  let params := default fetchRequest_params params in
  match fetchRequest_options method params with
  | Throw e => (w, Throw e)
  | Normal options =>
      let url := fetchRequest_url url params in
      let w := fetchRequest_timer params w in
      let reqUrl := baseURL ++ url in
      let w := record_request reqUrl options w in
      let (w, q) :=
        intercepted (fetchRequest_catch reqUrl) (fetch reqUrl options) w in
      (w, Normal q)
  end.

(** Lines 108-110 and 146-148: the question mark and the query string are
    added whenever [params.query] is there. *)
Definition transfer_url (url : string) (params : Params) : string :=
  match p_query params with
  | Some q => url ++ "?" ++ paramsFormat q
  | None => url
  end.

(** Lines 101-107 and 111-116. *)
Definition fetchFormData_options (data : value) (params : Params)
  : completion RequestInit :=
  bind (headers (Some [])) (fun h0 =>
  let options :=
    {| opt_method := "post"; opt_headers := h0; opt_signal := false;
       opt_credentials := "same-origin"; opt_body := Some data;
       opt_responseType := None |} in
  bind (append_params_headers (p_headers params) (opt_headers options))
       (fun h => Normal (with_headers options h))).

(** Lines 122-124. *)
Definition fetchFormData_catch : handler world thrown value :=
  fun error w =>
    (console_log (ConsoleError [LogText "请求错误: "; LogThrown error]) w,
     Normal (Value Undefined)).

(** [fetchFormData(url, data, params = {...})]. *)
Definition fetchFormData (url : string) (data : value)
  (params : option Params) (w : world) : world * completion (settled value) :=
  let params := default transfer_params params in
  match fetchFormData_options data params with
  | Throw e => (w, Throw e)
  | Normal options =>
      let url := transfer_url url params in
      let reqUrl := baseURL ++ url in
      let w := record_request reqUrl options w in
      let (w, q) := intercepted fetchFormData_catch (fetch reqUrl options) w in
      (w, Normal q)
  end.

(** Lines 139-145 and 149-154. *)
Definition fetchDownloadBlob_options (params : Params)
  : completion RequestInit :=
  bind (headers (Some [])) (fun h0 =>
  let options :=
    {| opt_method := "get"; opt_headers := h0; opt_signal := false;
       opt_credentials := "same-origin"; opt_body := None;
       opt_responseType := Some "arraybuffer" |} in
  bind (append_params_headers (p_headers params) (opt_headers options))
       (fun h => Normal (with_headers options h))).

(** The object built by the first reaction (lines 158-163). *)
Record FileInfo : Type := {
  fileName : value;
  buffer : settled (list byte)
}.

(** Lines 159-161:
    [decodeURI(res.headers.get('Content-Disposition')) || new Date().getTime()]. *)
Definition download_fileName (res : Response) (now : Z) : completion value :=
  bind (Headers_get (res_headers res) "Content-Disposition") (fun disposition =>
  bind (decodeURI disposition) (fun decoded =>
  Normal (if truthy (Text decoded) then Text decoded else Num now))).

(** Lines 157-164. *)
Definition fetchDownloadBlob_read : handler world Response FileInfo :=
  fun res w =>
    match download_fileName res (clock w) with
    | Throw e => (w, Throw e)
    | Normal name =>
        (w, Normal (Value {| fileName := name;
                             buffer := res_arrayBuffer res |}))
    end.

(** Lines 165-179.  The promise of [buffer.then] is not returned: the
    reaction yields [undefined] whatever the buffer does. *)
Definition fetchDownloadBlob_save (fileType : value)
  : handler world FileInfo value :=
  fun res w =>
    match buffer res with
    | Fulfilled bufferRes =>
        if Z.of_nat (List.length bufferRes) >? 0
        then (save_file {| file_name := ToString (fileName res);
                           file_bytes := bufferRes;
                           file_type := Blob_type fileType |} w,
              Normal (Value Undefined))
        else (console_log
                (ConsoleError
                   [LogText "文件导出错误, 服务器暂无相关文件资源."]) w,
              Normal (Value Undefined))
    | Rejected _ => (w, Normal (Value Undefined))
    end.

(** Line 180. *)
Definition fetchDownloadBlob_catch : handler world thrown value :=
  fun error w => (w, Normal (Value Undefined)).

(** [fetchDownloadBlob(url, params = {...}, fileType)]. *)
Definition fetchDownloadBlob (url : string) (params : option Params)
  (fileType : value) (w : world) : world * completion (settled value) :=
  let params := default transfer_params params in
  match fetchDownloadBlob_options params with
  | Throw e => (w, Throw e)
  | Normal options =>
      let url := transfer_url url params in
      let reqUrl := baseURL ++ url in
      let w := record_request reqUrl options w in
      let (w, p) := promise_then (fetch reqUrl options) fetchDownloadBlob_read w in
      let (w, p') := promise_then p (fetchDownloadBlob_save fileType) w in
      let (w, q) := promise_catch p' fetchDownloadBlob_catch w in
      (w, Normal q)
  end.

End Exported.

End FetchUtils.

(* ================================================================= *)
(** ** The specification's table *)

Module Spec.

(** The message the specification maps each status to (section 4.2 and
    section 7): the table {400, 403, 404, 413, 500}, written over the
    numbers.  The code's table is [FetchUtils.errCodes], keyed by property
    names. *)
Definition mapped_message (status : Z) : option string :=
  if status =? 400 then Some "请求参数错误"
  else if status =? 403 then Some "无权访问"
  else if status =? 404 then Some "资源不存在"
  else if status =? 413 then Some "请求文件过大"
  else if status =? 500 then Some "服务器内部错误"
  else None.

Import JS FetchUtils.

(** What section 4.3 and section 7 promise about the value [v] a request
    function resolves to and about the console, given what the network
    answered: an error (a rejected request, a body that does not parse, a
    mapped status) leaves [undefined] and a last console line written by
    [console.error]; a parsed body is passed on and nothing is written. *)
Definition swallowed (before after : list log_entry)
  (outcome : settled Response) (v : value) : Prop :=
  match outcome with
  | Rejected e =>
      v = Undefined
      /\ exists args, after = (before ++ [ConsoleError args])%list
  | Fulfilled res =>
      if (truthy (Num (res_status res)) && res_ok res)%bool then
        match res_json res with
        | Fulfilled body => v = body /\ after = before
        | Rejected e =>
            v = Undefined
            /\ exists args, after = (before ++ [ConsoleError args])%list
        end
      else
        match mapped_message (res_status res) with
        | Some message =>
            v = Undefined
            /\ exists info,
                 after =
                 (before ++ info
                  ++ [ConsoleError [LogText "请求错误: ";
                                    LogThrown (ThrowText message)]])%list
        | None => v = Undefined /\ after = before
        end
  end.

End Spec.

(* ================================================================= *)
(** ** Reading a query string back *)

Module Reading.

Import JS.

(** The characters [urlencoded] writes for a name or a value. *)
Definition component_char (c : ascii) : bool :=
  (Str.is_alnum c || Str.one_of "*-._+%" c)%bool.

(** The characters a query string is made of: those of its components and
    the two separators. *)
Definition query_char (c : ascii) : bool :=
  (component_char c || Str.one_of "=&" c)%bool.

(** The reader of application/x-www-form-urlencoded components: a plus sign
    is a space, a percent sign followed by two hexadecimal digits is the
    byte they spell, anything else is itself. *)
Fixpoint form_decode (l : list ascii) : list ascii :=
  match l with
  | [] => []
  | c :: rest =>
      if Ascii.eqb c "+"%char then " "%char :: form_decode rest
      else if Ascii.eqb c "%"%char then
        match rest with
        | h1 :: h2 :: rest' =>
            match hex_byte h1 h2 with
            | Some b => ascii_of_N b :: form_decode rest'
            | None => c :: form_decode rest
            end
        | _ => c :: form_decode rest
        end
      else c :: form_decode rest
  end.

End Reading.

(* ================================================================= *)
(** ** Sample inputs *)

Module Samples.

Import JS FetchUtils.

Definition quiet : world :=
  {| console := []; timers := []; requests := []; downloads := [];
     clock := 1700000000000 |}.

Definition response (status : Z) (ok : bool) (hs : Headers) : Response :=
  {| res_status := status; res_ok := ok; res_headers := hs;
     res_json := Fulfilled (Obj [("id", Num 7)]);
     res_arrayBuffer := Fulfilled [x50; x4b] |}.

Definition answers (r : Response) : string -> RequestInit -> settled Response :=
  fun _ _ => Fulfilled r.

Definition fails (e : thrown) : string -> RequestInit -> settled Response :=
  fun _ _ => Rejected e.

Definition network_down : thrown := ThrowError "TypeError" "Failed to fetch".

Definition only_timeout (t : Z) : Params :=
  {| p_query := None; p_data := Undefined; p_headers := None;
     p_timeout := Some t |}.

Definition only_headers (hs : object) : Params :=
  {| p_query := None; p_data := Undefined; p_headers := Some hs;
     p_timeout := None |}.

Definition only_query (q : object) : Params :=
  {| p_query := Some q; p_data := Undefined; p_headers := None;
     p_timeout := None |}.

Definition only_data (d : value) : Params :=
  {| p_query := None; p_data := d; p_headers := None; p_timeout := None |}.

End Samples.

(* ================================================================= *)
(** ** Facts about the platform fragment *)

Import JS FetchUtils.

Module StrFacts.

Lemma chars_app (a b : string) :
  Str.chars (a ++ b) = (Str.chars a ++ Str.chars b)%list.
Proof.
  induction a as [|c a IH]; simpl; [reflexivity|].
  unfold Str.chars in *. simpl. now rewrite IH.
Qed.

Lemma append_empty (a : string) : a ++ "" = a.
Proof. induction a as [|c a IH]; simpl; [reflexivity | now rewrite IH]. Qed.

Lemma string_length_app (a b : string) :
  String.length (a ++ b) = (String.length a + String.length b)%nat.
Proof. induction a as [|c a IH]; simpl; [reflexivity | now rewrite IH]. Qed.

(** A string is never its own proper extension. *)
Lemma app_nonempty_neq (a b : string) : b <> "" -> a <> a ++ b.
Proof.
  intros Hb Heq. apply (f_equal String.length) in Heq.
  rewrite string_length_app in Heq. destruct b as [|c b]; [congruence|].
  simpl in Heq. lia.
Qed.

(** The decimal rendering reads back as the number it renders. *)
Lemma of_Z_reads_back (z : Z) :
  NilZero.int_of_string (Str.of_Z z) = Some (Z.to_int z).
Proof.
  unfold Str.of_Z. apply NilZero.isi; destruct z; simpl; try discriminate;
    intros H; injection H as H; now apply DecimalPos.Unsigned.to_uint_nonnil in H.
Qed.

Lemma of_Z_inj (a b : Z) : Str.of_Z a = Str.of_Z b -> a = b.
Proof.
  intros H. apply (f_equal NilZero.int_of_string) in H.
  rewrite !of_Z_reads_back in H. injection H as H. now apply to_int_inj.
Qed.

(** No number is rendered as the text [null]. *)
Lemma of_Z_not_null (z : Z) : Str.of_Z z <> "null".
Proof.
  intros H. apply (f_equal NilZero.int_of_string) in H.
  rewrite of_Z_reads_back in H. vm_compute in H. discriminate.
Qed.

Lemma join_two (sep a b : string) (rest : list string) :
  Str.join sep (a :: b :: rest) = a ++ sep ++ Str.join sep (b :: rest).
Proof. reflexivity. Qed.

End StrFacts.

(** *** How numbers print *)

Module NumberFacts.

Import StrFacts.

Lemma of_Z_not_empty (z : Z) : Str.of_Z z <> "".
Proof.
  intros H. apply (f_equal NilZero.int_of_string) in H.
  rewrite of_Z_reads_back in H. cbn in H.
  destruct z; cbn in H; inversion H as [H'];
    now apply DecimalPos.Unsigned.to_uint_nonnil in H'.
Qed.

Lemma of_Z_negative (p : positive) :
  "-" ++ Str.of_Z (Z.pos p) = Str.of_Z (Z.neg p).
Proof. reflexivity. Qed.

(** Rounding keeps a magnitude of 2^53 or more at 2^53 or more. *)
Lemma round_magnitude_large (a : Z) :
  2 ^ 53 <= a -> 2 ^ 53 <= round_magnitude a.
Proof.
  intros Ha. unfold round_magnitude.
  destruct (Z.ltb_spec a (2 ^ 53)) as [Hlt|_]; [lia|].
  set (e := Z.log2 a - 52).
  assert (Hlog : 53 <= Z.log2 a).
  { apply Z.log2_le_pow2; lia. }
  assert (He : 1 <= e) by (unfold e; lia).
  assert (Hpow : 2 ^ (52 + e) <= a).
  { replace (52 + e) with (Z.log2 a) by (unfold e; lia).
    apply Z.log2_spec. lia. }
  assert (H2e : 0 < 2 ^ e) by (apply Z.pow_pos_nonneg; lia).
  assert (Hq : 2 ^ 52 <= a / 2 ^ e).
  { apply Z.div_le_lower_bound; [lia|].
    rewrite Z.mul_comm, <- Z.pow_add_r by lia. exact Hpow. }
  set (q := a / 2 ^ e) in *.
  assert (Hmono : forall q', q <= q' -> 2 ^ 53 <= q' * 2 ^ e).
  { intros q' Hq'. change (2 ^ 53) with (2 ^ 52 * 2 ^ 1).
    apply Z.mul_le_mono_nonneg; try lia.
    apply Z.pow_le_mono_r; lia. }
  cbv zeta.
  destruct (_ <? _); [apply Hmono; lia|].
  destruct (_ <? _); [apply Hmono; lia|].
  destruct (Z.even q); apply Hmono; lia.
Qed.

(** The three shapes of a printed number: plain decimal digits, of the
    number itself below 2^53; an exponent form, with its plus sign; an
    infinity. *)
Lemma Number_toString_shape (z : Z) :
  (exists v,
      Number_toString z = Str.of_Z v
      /\ (Z.abs z < 2 ^ 53 -> v = z)
      /\ (2 ^ 53 <= Z.abs z -> 2 ^ 53 <= Z.abs v))
  \/ (2 ^ 53 <= Z.abs z
      /\ (In "+"%char (Str.chars (Number_toString z))
          \/ In "I"%char (Str.chars (Number_toString z)))).
Proof.
  unfold Number_toString.
  destruct (Z.ltb_spec (Z.abs z) (2 ^ 53)) as [Hsmall|Hlarge].
  - left. exists z. repeat split; auto; lia.
  - unfold round_double.
    pose proof (round_magnitude_large _ Hlarge) as Hm.
    set (m := round_magnitude (Z.abs z)) in *.
    destruct (m <? 2 ^ 1024).
    + assert (Hexp : forall v, 0 < v ->
                 (exists u, Number_toString_positive v = Str.of_Z u
                            /\ u = v)
                 \/ In "+"%char (Str.chars (Number_toString_positive v))).
      { intros v Hv. unfold Number_toString_positive.
        destruct (v <? 10 ^ 21); [left; now exists v|].
        right. destruct (shortest_digits v) as [digits exponent].
        unfold exponent_form.
        destruct (Str.of_Z digits) as [|d more] eqn:Hd;
          [now apply of_Z_not_empty in Hd|].
        destruct more as [|d' more].
        - change (Str.chars (String d ("e+" ++ Str.of_Z exponent)))
            with (d :: "e"%char :: "+"%char
                    :: Str.chars (Str.of_Z exponent)).
          right. right. now left.
        - change (String d ("." ++ String d' more ++ "e+"
                            ++ Str.of_Z exponent))
            with (String d "." ++ (String d' more
                                   ++ ("e+" ++ Str.of_Z exponent))).
          rewrite !chars_app. apply in_or_app. right.
          apply in_or_app. right. right. now left. }
      clearbody m.
      destruct (Z.ltb_spec (Z.sgn z * m) 0) as [Hneg|Hpos].
      * assert (Hz : z < 0) by (destruct z; cbn [Z.sgn] in *; lia).
        assert (Hv : - (Z.sgn z * m) = m)
          by (destruct z; cbn [Z.sgn] in *; lia).
        rewrite Hv. destruct (Hexp m ltac:(lia)) as [(u & Hu & ->)|Hin].
        -- left. exists (- m). rewrite Hu. split.
           ++ destruct m as [|pm|pm]; try lia. apply of_Z_negative.
           ++ split; lia.
        -- right. split; [lia|]. left.
           change ("-" ++ Number_toString_positive m)
             with (String "-" (Number_toString_positive m)).
           now right.
      * assert (Hz : 0 < z)
          by (destruct z; cbn [Z.sgn Z.abs] in *; lia).
        assert (Hv : Z.sgn z * m = m) by (destruct z; cbn [Z.sgn] in *; lia).
        rewrite Hv. destruct (Hexp m ltac:(lia)) as [(u & Hu & ->)|Hin].
        -- left. exists m. rewrite Hu. repeat split; lia.
        -- right. split; [lia|]. now left.
    + right. split; [lia|]. right.
      destruct (z <? 0); cbn; auto.
Qed.




Lemma Number_toString_small (z : Z) :
  Z.abs z < 2 ^ 53 -> Number_toString z = Str.of_Z z.
Proof.
  intros H. unfold Number_toString.
  now destruct (Z.ltb_spec (Z.abs z) (2 ^ 53)); [|lia].
Qed.

(** No number prints as the text [null]. *)
Lemma Number_toString_not_null (z : Z) : Number_toString z <> "null".
Proof.
  destruct (Number_toString_shape z) as [(v & -> & _)|[_ [Hin|Hin]]].
  - apply of_Z_not_null.
  - intros H. rewrite H in Hin. cbn in Hin.
    repeat (destruct Hin as [Hin|Hin]; [discriminate|]). exact Hin.
  - intros H. rewrite H in Hin. cbn in Hin.
    repeat (destruct Hin as [Hin|Hin]; [discriminate|]). exact Hin.
Qed.

(** A number prints as the digits of a small integer only if it is that
    integer. *)
Lemma Number_toString_is (k z : Z) :
  Z.abs k < 2 ^ 53 ->
  Str.all Str.is_digit (Str.of_Z k) = true ->
  String.eqb (Str.of_Z k) (Number_toString z) = (z =? k).
Proof.
  intros Hk Hdigits.
  destruct (String.eqb_spec (Str.of_Z k) (Number_toString z)) as [E|E].
  - symmetry. apply Z.eqb_eq.
    destruct (Number_toString_shape z) as [(v & Hv & Hs & Hl)|[_ Hin]].
    + rewrite Hv in E. apply of_Z_inj in E. subst v.
      destruct (Z.lt_ge_cases (Z.abs z) (2 ^ 53)) as [H|H];
        [symmetry; auto | apply Hl in H; lia].
    + rewrite <- E in Hin. unfold Str.all in Hdigits.
      rewrite forallb_forall in Hdigits.
      destruct Hin as [Hin|Hin]; apply Hdigits in Hin; discriminate.
  - symmetry. apply Z.eqb_neq. intros ->. apply E.
    now rewrite Number_toString_small.
Qed.

End NumberFacts.

(** *** The table of [interceptors] *)

Module TableFacts.

Import StrFacts NumberFacts.

Lemma key_eqb (k : Z) (status : Z) :
  Z.abs k < 2 ^ 53 ->
  Str.all Str.is_digit (Str.of_Z k) = true ->
  String.eqb (Str.of_Z k) (ToString (Num status)) = (status =? k).
Proof. apply Number_toString_is. Qed.

(** Looking a status up in [errCodes] by its property name finds exactly
    the message mapped to the number. *)
Lemma errCodes_lookup (status : Z) :
  own_property errCodes (ToString (Num status)) = Spec.mapped_message status.
Proof.
  unfold errCodes, Spec.mapped_message. cbn [own_property].
  change "400" with (Str.of_Z 400). change "403" with (Str.of_Z 403).
  change "404" with (Str.of_Z 404). change "413" with (Str.of_Z 413).
  change "500" with (Str.of_Z 500).
  rewrite !key_eqb by reflexivity.
  repeat match goal with |- context [?a =? ?b] => destruct (a =? b) end;
    reflexivity.
Qed.

End TableFacts.

(* ================================================================= *)
(** ** The response interceptor *)

Module InterceptorFacts.

Import TableFacts.

(** C6.  On a response that is not (status truthy and ok), [interceptors]
    throws exactly when the status is one of 400, 403, 404, 413 and 500,
    and what it throws is the message mapped to that status; for 403 the
    console first receives the line of [console.info]; on every other such
    response it returns [undefined] and writes nothing. *)
Theorem interceptors_not_ok (res : Response) (w : world) :
  (truthy (Num (res_status res)) && res_ok res)%bool = false ->
  interceptors res w =
  match Spec.mapped_message (res_status res) with
  | Some message =>
      (if res_status res =? 403
       then console_log (ConsoleInfo [LogText "无权访问"]) w
       else w,
       Throw (ThrowText message))
  | None => (w, Normal (Value Undefined))
  end.
Proof.
  intros Hnot. unfold interceptors. rewrite Hnot, errCodes_lookup.
  destruct (Spec.mapped_message (res_status res)) eqn:Hm; [reflexivity|].
  destruct (res_status res =? 403) eqn:H403; [|reflexivity].
  apply Z.eqb_eq in H403. rewrite H403 in Hm. discriminate.
Qed.

Lemma interceptors_not_ok_witness :
  let res := Samples.response 403 false [] in
  (truthy (Num (res_status res)) && res_ok res)%bool = false
  /\ interceptors res Samples.quiet =
     (console_log (ConsoleInfo [LogText "无权访问"]) Samples.quiet,
      Throw (ThrowText "无权访问")).
Proof.
  split; [reflexivity|].
  exact (interceptors_not_ok (Samples.response 403 false []) Samples.quiet
           eq_refl).
Defined.

(** The two statuses the specification singles out. *)
Lemma interceptors_404 (res : Response) (w : world) :
  res_status res = 404 ->
  res_ok res = false ->
  interceptors res w = (w, Throw (ThrowText "资源不存在")).
Proof.
  intros Hs Hok. rewrite interceptors_not_ok by (now rewrite Hok, andb_false_r).
  now rewrite Hs.
Qed.

Lemma interceptors_403 (res : Response) (w : world) :
  res_status res = 403 ->
  res_ok res = false ->
  interceptors res w =
  (console_log (ConsoleInfo [LogText "无权访问"]) w,
   Throw (ThrowText "无权访问")).
Proof.
  intros Hs Hok. rewrite interceptors_not_ok by (now rewrite Hok, andb_false_r).
  now rewrite Hs.
Qed.

(** C7.  On a response with a truthy status and [ok], [interceptors]
    returns the promise of [res.json()] as it is: it does not throw, writes
    nothing, and the promise derived from it is fulfilled with the parsed
    body whenever the body parses. *)
Theorem interceptors_ok (res : Response) (w : world) :
  truthy (Num (res_status res)) = true ->
  res_ok res = true ->
  interceptors res w = (w, Normal (Promise (res_json res)))
  /\ forall body, res_json res = Fulfilled body ->
                  settle (interceptors res w) = (w, Fulfilled body).
Proof.
  intros Hs Hok. unfold interceptors. rewrite Hs, Hok. cbn [andb].
  split; [reflexivity|]. intros body Hb. cbn [settle]. now rewrite Hb.
Qed.

Lemma interceptors_ok_witness :
  let res := Samples.response 200 true [] in
  truthy (Num (res_status res)) = true
  /\ res_ok res = true
  /\ interceptors res Samples.quiet
     = (Samples.quiet, Normal (Promise (Fulfilled (Obj [("id", Num 7)])))).
Proof.
  split; [reflexivity|]. split; [reflexivity|].
  exact (proj1 (interceptors_ok (Samples.response 200 true []) Samples.quiet
                  eq_refl eq_refl)).
Defined.

End InterceptorFacts.

(* ================================================================= *)
(** ** The promise chain of [fetchRequest] and [fetchFormData] *)

Module ChainFacts.

Import InterceptorFacts.

(** What the timer and the request record leave alone. *)
Lemma console_fetchRequest_timer (params : Params) (w : world) :
  console (fetchRequest_timer params w) = console w.
Proof. unfold fetchRequest_timer. now destruct (_ >? _). Qed.

Lemma console_record_request (u : string) (o : RequestInit) (w : world) :
  console (record_request u o w) = console w.
Proof. reflexivity. Qed.

Section Chain.

Variable on_error : handler world thrown value.

(** Both [catch] handlers write one [console.error] line and return
    nothing; for a thrown string the line is the generic one. *)
Hypothesis on_error_logs :
  forall e w, exists args,
    on_error e w
    = (console_log (ConsoleError args) w, Normal (Value Undefined)).

Hypothesis on_error_text :
  forall s w,
    on_error (ThrowText s) w
    = (console_log (ConsoleError [LogText "请求错误: ";
                                  LogThrown (ThrowText s)]) w,
       Normal (Value Undefined)).

Lemma intercepted_swallows (outcome : settled Response) (w : world) :
  exists w' v,
    intercepted on_error outcome w = (w', Fulfilled v)
    /\ Spec.swallowed (console w) (console w') outcome v.
Proof.
  unfold intercepted. destruct outcome as [res|e]; cbn [promise_then].
  - unfold Spec.swallowed.
    destruct (truthy (Num (res_status res)) && res_ok res)%bool eqn:Hc.
    + apply andb_true_iff in Hc as [Hs Hok].
      destruct (interceptors_ok res w Hs Hok) as [-> _]. cbn [settle].
      destruct (res_json res) as [body|e]; cbn [promise_catch].
      * now exists w, body.
      * destruct (on_error_logs e w) as [args ->]. cbn [settle].
        eexists _, _. split; [reflexivity|]. split; [reflexivity|].
        now exists args.
    + rewrite (interceptors_not_ok res w Hc).
      destruct (Spec.mapped_message (res_status res)) as [m|].
      * cbn [settle promise_catch]. rewrite on_error_text. cbn [settle].
        eexists _, _. split; [reflexivity|]. split; [reflexivity|].
        destruct (res_status res =? 403).
        -- exists [ConsoleInfo [LogText "无权访问"]]. cbn.
           now rewrite <- app_assoc.
        -- now exists [].
      * cbn [settle promise_catch]. now exists w, Undefined.
  - cbn [promise_catch]. destruct (on_error_logs e w) as [args ->].
    cbn [settle]. eexists _, _. split; [reflexivity|].
    split; [reflexivity|]. now exists args.
Qed.

(** The chain writes to the console only. *)
Lemma intercepted_frame (outcome : settled Response) (w : world) :
  let w' := fst (intercepted on_error outcome w) in
  timers w' = timers w /\ requests w' = requests w.
Proof.
  unfold intercepted, interceptors.
  destruct outcome as [res|e]; cbn [promise_then].
  - destruct (truthy (Num (res_status res)) && res_ok res)%bool;
      [|destruct (res_status res =? 403);
        destruct (own_property errCodes _)];
      cbn [settle];
      try (destruct (res_json res) as [body|e]);
      cbn [promise_catch settle fst];
      try (match goal with
           | |- context [on_error ?e ?w] =>
               destruct (on_error_logs e w) as [args ->]
           end);
      cbn; auto.
  - cbn [promise_catch]. destruct (on_error_logs e w) as [args ->].
    cbn. auto.
Qed.

End Chain.

Lemma fetchRequest_catch_logs (reqUrl : string) (e : thrown) (w : world) :
  exists args,
    fetchRequest_catch reqUrl e w
    = (console_log (ConsoleError args) w, Normal (Value Undefined)).
Proof.
  unfold fetchRequest_catch.
  destruct e as [s|name message]; [now eexists|].
  destruct (Str.includes _ _); now eexists.
Qed.

Lemma fetchFormData_catch_logs (e : thrown) (w : world) :
  exists args,
    fetchFormData_catch e w
    = (console_log (ConsoleError args) w, Normal (Value Undefined)).
Proof. now eexists. Qed.

(** C5, as amended.  Whenever [fetchRequest] or [fetchFormData] gets as far
    as issuing its request (its options are built: the loop over
    [params.headers] has not thrown), the promise it returns is fulfilled,
    whatever the network answers: never rejected.  After an error (a rejected request, an
    aborted one, a mapped status thrown by [interceptors], a body that does
    not parse) the value is [undefined] and the console has received a
    [console.error] line; after a success the value is the parsed body. *)
Theorem request_promises_always_resolve
  (fetch : string -> RequestInit -> settled Response)
  (url method : option string) (target : string) (data : value)
  (params params' : option Params) (w : world) (o o' : RequestInit) :
  fetchRequest_options (default "get" method)
    (default fetchRequest_params params) = Normal o ->
  fetchFormData_options data (default transfer_params params') = Normal o' ->
  (exists w1 v,
      fetchRequest fetch url method params w = (w1, Normal (Fulfilled v))
      /\ Spec.swallowed (console w) (console w1)
           (fetch (baseURL
                   ++ fetchRequest_url (default "" url)
                        (default fetchRequest_params params)) o) v)
  /\ (exists w2 v,
         fetchFormData fetch target data params' w
         = (w2, Normal (Fulfilled v))
         /\ Spec.swallowed (console w) (console w2)
              (fetch (baseURL
                      ++ transfer_url target (default transfer_params params'))
                 o') v).
Proof.
  intros Ho Ho'. split.
  - unfold fetchRequest. rewrite Ho.
    set (reqUrl := baseURL ++ fetchRequest_url _ _).
    set (w0 := record_request reqUrl o _).
    destruct (intercepted_swallows (fetchRequest_catch reqUrl)
                (fetchRequest_catch_logs reqUrl) (fun s w => eq_refl)
                (fetch reqUrl o) w0) as (w1 & v & -> & Hsw).
    exists w1, v. split; [reflexivity|].
    subst w0. now rewrite console_record_request,
                console_fetchRequest_timer in Hsw.
  - unfold fetchFormData. rewrite Ho'.
    set (reqUrl := baseURL ++ transfer_url _ _).
    set (w0 := record_request reqUrl o' _).
    destruct (intercepted_swallows fetchFormData_catch
                fetchFormData_catch_logs (fun s w => eq_refl)
                (fetch reqUrl o') w0) as (w2 & v & -> & Hsw).
    exists w2, v. split; [reflexivity|].
    subst w0. now rewrite console_record_request in Hsw.
Qed.

Lemma request_promises_always_resolve_witness :
  exists o o',
    fetchRequest_options "get" fetchRequest_params = Normal o
    /\ fetchFormData_options (Obj []) transfer_params = Normal o'
    /\ (exists w1 v,
           fetchRequest (Samples.fails Samples.network_down) (Some "/api")
             None None Samples.quiet = (w1, Normal (Fulfilled v))
           /\ Spec.swallowed (console Samples.quiet) (console w1)
                (Samples.fails Samples.network_down
                   (baseURL ++ fetchRequest_url "/api" fetchRequest_params) o)
                v)
    /\ (exists w2 v,
           fetchFormData (Samples.fails Samples.network_down) "/upload"
             (Obj []) None Samples.quiet = (w2, Normal (Fulfilled v))
           /\ Spec.swallowed (console Samples.quiet) (console w2)
                (Samples.fails Samples.network_down
                   (baseURL ++ transfer_url "/upload" transfer_params) o')
                v).
Proof.
  eexists. eexists.
  split; [reflexivity|]. split; [reflexivity|].
  exact (request_promises_always_resolve
           (Samples.fails Samples.network_down) (Some "/api") None "/upload"
           (Obj []) None None Samples.quiet _ _ eq_refl eq_refl).
Defined.

(** C5, as stated, fails.  With the single caller header [bad name], which
    is no header name, [Headers.append] throws in the loop of lines 65-70
    and 111-116, outside the promise chain: neither [fetchRequest] nor
    [fetchFormData] returns a promise, the TypeError reaches the caller,
    and nothing has been written to the console. *)
Lemma invalid_header_escapes_unlogged :
  fetchRequest (Samples.answers (Samples.response 200 true []))
    (Some "/api") None
    (Some (Samples.only_headers [("bad name", Text "v")])) Samples.quiet
  = (Samples.quiet, Throw (TypeError "Headers.append: invalid name"))
  /\ fetchFormData (Samples.answers (Samples.response 200 true []))
       "/upload" (Obj [])
       (Some (Samples.only_headers [("bad name", Text "v")])) Samples.quiet
     = (Samples.quiet, Throw (TypeError "Headers.append: invalid name"))
  /\ ~ (exists w' v,
          fetchRequest (Samples.answers (Samples.response 200 true []))
            (Some "/api") None
            (Some (Samples.only_headers [("bad name", Text "v")]))
            Samples.quiet
          = (w', Normal (Fulfilled v)))
  /\ ~ (exists w' v,
          fetchFormData (Samples.answers (Samples.response 200 true []))
            "/upload" (Obj [])
            (Some (Samples.only_headers [("bad name", Text "v")]))
            Samples.quiet
          = (w', Normal (Fulfilled v))).
Proof.
  split; [reflexivity|]. split; [reflexivity|].
  split; intros (w' & v & H); vm_compute in H; discriminate.
Qed.

End ChainFacts.

(* ================================================================= *)
(** ** The request [fetchRequest] builds *)

Module RequestFacts.

Import StrFacts ChainFacts.

(** The two header collections the module starts from. *)
Lemma headers_json :
  headers (Some [("content-Type", "application/json")])
  = Normal [("content-Type", "application/json")].
Proof. reflexivity. Qed.

Lemma headers_empty : headers (Some []) = Normal [].
Proof. reflexivity. Qed.

(** The loop over [params.headers] leaves the body alone. *)
Lemma fetchRequest_options_body (method : string) (params : Params)
  (o : RequestInit) :
  fetchRequest_options method params = Normal o ->
  opt_body o =
  if (negb (String.eqb method "get") && truthy (p_data params))%bool
  then Some (JSON_stringify (p_data params))
  else None.
Proof.
  unfold fetchRequest_options. rewrite headers_json. cbn [bind].
  destruct (negb (String.eqb method "get") && truthy (p_data params))%bool;
    cbn [with_body opt_headers];
    destruct (append_params_headers _ _) as [h|e]; cbn [bind];
    intros H; inversion H; reflexivity.
Qed.

(** A call that builds its options issues one request, with these options,
    and sets its timer by the rule of lines 71-74. *)
Lemma fetchRequest_issues
  (fetch : string -> RequestInit -> settled Response)
  (url method : option string) (params : option Params) (w : world)
  (o : RequestInit) :
  let p := default fetchRequest_params params in
  fetchRequest_options (default "get" method) p = Normal o ->
  let w' := fst (fetchRequest fetch url method params w) in
  requests w' =
    (requests w
     ++ [((baseURL ++ fetchRequest_url (default "" url) p)%string, o)])%list
  /\ timers w' = timers (fetchRequest_timer p w).
Proof.
  intros p Ho. unfold fetchRequest. fold p. rewrite Ho.
  set (reqUrl := baseURL ++ _). set (w0 := record_request _ _ _).
  pose proof (intercepted_frame (fetchRequest_catch reqUrl)
                (fetchRequest_catch_logs reqUrl) (fetch reqUrl o) w0) as Hf.
  destruct (intercepted _ _ w0) as [w1 q]. cbn [fst] in *.
  destruct Hf as [Ht Hr]. rewrite Ht, Hr. subst w0.
  unfold fetchRequest_timer. destruct (_ >? _); cbn; auto.
Qed.

(** A call whose options cannot be built throws and does nothing else. *)
Lemma fetchRequest_throws
  (fetch : string -> RequestInit -> settled Response)
  (url method : option string) (params : option Params) (w : world)
  (e : thrown) :
  fetchRequest_options (default "get" method)
    (default fetchRequest_params params) = Throw e ->
  fetchRequest fetch url method params w = (w, Throw e).
Proof. intros He. unfold fetchRequest. now rewrite He. Qed.

Lemma issued_request
  (fetch : string -> RequestInit -> settled Response)
  (url method : option string) (params : option Params) (w : world)
  (u : string) (o : RequestInit) :
  requests (fst (fetchRequest fetch url method params w))
    = (requests w ++ [(u, o)])%list ->
  fetchRequest_options (default "get" method)
    (default fetchRequest_params params) = Normal o.
Proof.
  intros Hreq.
  destruct (fetchRequest_options (default "get" method)
              (default fetchRequest_params params)) as [o1|e] eqn:Ho.
  - destruct (fetchRequest_issues fetch url method params w o1 Ho) as [Hr _].
    rewrite Hr in Hreq. apply app_inv_head in Hreq. now inversion Hreq.
  - rewrite (fetchRequest_throws fetch url method params w e Ho) in Hreq.
    cbn [fst] in Hreq. apply (f_equal (@List.length _)) in Hreq.
    rewrite List.length_app in Hreq. cbn in Hreq. lia.
Qed.

(** C9.  A request issued by [fetchRequest] with the method [get] (given or
    by default) has no body in its options, whatever [params.data] is. *)
Theorem get_request_has_no_body
  (fetch : string -> RequestInit -> settled Response)
  (url method : option string) (params : option Params) (w : world)
  (u : string) (o : RequestInit) :
  default "get" method = "get" ->
  requests (fst (fetchRequest fetch url method params w))
    = (requests w ++ [(u, o)])%list ->
  opt_body o = None.
Proof.
  intros Hm Hreq. apply issued_request in Hreq.
  apply fetchRequest_options_body in Hreq. now rewrite Hm in Hreq.
Qed.

(** C10.  The comparison with [get] is on the exact string: a request
    issued with any other method, [GET] included, and a truthy
    [params.data] carries as body the string [JSON.stringify] makes of the
    data. *)
Theorem other_method_sends_json_body
  (fetch : string -> RequestInit -> settled Response)
  (url : option string) (method : string) (params : option Params)
  (w : world) (u : string) (o : RequestInit) :
  method <> "get" ->
  truthy (p_data (default fetchRequest_params params)) = true ->
  requests (fst (fetchRequest fetch url (Some method) params w))
    = (requests w ++ [(u, o)])%list ->
  opt_body o
    = Some (JSON_stringify (p_data (default fetchRequest_params params)))
  /\ exists text,
       JSON_stringify (p_data (default fetchRequest_params params))
       = Text text.
Proof.
  intros Hm Hd Hreq. apply issued_request in Hreq.
  apply fetchRequest_options_body in Hreq. cbn [default] in Hreq.
  apply String.eqb_neq in Hm. rewrite Hm, Hd in Hreq. split; [exact Hreq|].
  unfold JSON_stringify.
  destruct (p_data (default fetchRequest_params params)) as [| |b|z|s|l|l];
    try discriminate; cbn [SerializeJSONProperty];
    try (destruct b); now eexists.
Qed.

Lemma get_request_has_no_body_witness :
  exists u o,
    default "get" (Some "get") = "get"
    /\ requests
         (fst (fetchRequest (Samples.answers (Samples.response 200 true []))
                 (Some "/api") (Some "get")
                 (Some (Samples.only_data (Obj [("a", Num 1)])))
                 Samples.quiet))
       = (requests Samples.quiet ++ [(u, o)])%list
    /\ opt_body o = None.
Proof.
  eexists. eexists. split; [reflexivity|]. split; [reflexivity|].
  exact (get_request_has_no_body
           (Samples.answers (Samples.response 200 true []))
           (Some "/api") (Some "get")
           (Some (Samples.only_data (Obj [("a", Num 1)])))
           Samples.quiet _ _ eq_refl eq_refl).
Defined.

Lemma other_method_sends_json_body_witness :
  exists u o,
    "GET" <> "get"
    /\ truthy (Obj [("a", Num 1)]) = true
    /\ requests
         (fst (fetchRequest (Samples.answers (Samples.response 200 true []))
                 (Some "/api") (Some "GET")
                 (Some (Samples.only_data (Obj [("a", Num 1)])))
                 Samples.quiet))
       = (requests Samples.quiet ++ [(u, o)])%list
    /\ opt_body o = Some (JSON_stringify (Obj [("a", Num 1)])).
Proof.
  eexists. eexists. split; [discriminate|]. split; [reflexivity|].
  split; [reflexivity|].
  exact (proj1 (other_method_sends_json_body
                  (Samples.answers (Samples.response 200 true []))
                  (Some "/api") "GET"
                  (Some (Samples.only_data (Obj [("a", Num 1)])))
                  Samples.quiet _ _
                  (fun H : "GET" = "get" =>
                     eq_ind "GET"
                       (fun s => match s with
                                 | String "G" _ => True
                                 | _ => False
                                 end) I "get" H)
                  eq_refl eq_refl)).
Defined.

(** *** The abort timer (lines 71-74) *)


(** The default of ten seconds when [params.timeout] is missing. *)
Lemma fetchRequest_timeout_missing (params : Params) :
  p_timeout params = None -> fetchRequest_timeout params = 10.
Proof. unfold fetchRequest_timeout. now intros ->. Qed.

(** A timeout that is not zero is taken as it is. *)
Lemma fetchRequest_timeout_given (params : Params) (t : Z) :
  p_timeout params = Some t -> t <> 0 -> fetchRequest_timeout params = t.
Proof.
  unfold fetchRequest_timeout. intros -> Ht. cbn [truthy].
  apply Z.eqb_neq in Ht. now rewrite Ht.
Qed.

(** Without [params.headers] the options are always built. *)
Lemma fetchRequest_options_no_headers (method : string) (params : Params) :
  p_headers params = None ->
  exists o, fetchRequest_options method params = Normal o.
Proof.
  intros Hh. unfold fetchRequest_options. rewrite headers_json, Hh.
  cbn [bind append_params_headers]. now eexists.
Qed.

(** C1, what the code does.  With [params.timeout] equal to 0 the call
    still schedules its abort timer, ten seconds ahead: line 71 replaces
    the falsy 0 by the default before line 72 compares it with 0. *)
Theorem zero_timeout_schedules_abort
  (fetch : string -> RequestInit -> settled Response)
  (url method : option string) (q : option object) (d : value) (w : world) :
  let params := {| p_query := q; p_data := d; p_headers := None;
                   p_timeout := Some 0 |} in
  fetchRequest_timeout params = 10
  /\ timers (fst (fetchRequest fetch url method (Some params) w))
     = (timers w ++ [AbortAfter 10000])%list.
Proof.
  intros params. split; [reflexivity|].
  destruct (fetchRequest_options_no_headers (default "get" method)
              params eq_refl) as [o Ho].
  destruct (fetchRequest_issues fetch url method (Some params) w o Ho)
    as [_ Ht].
  rewrite Ht. reflexivity.
Qed.

(** The call of the specification's property, and a negative timeout, which
    does switch the timer off. *)
Example zero_timeout_example :
  timers (fst (fetchRequest (Samples.answers (Samples.response 200 true []))
                 (Some "/api/items") (Some "get")
                 (Some (Samples.only_timeout 0)) Samples.quiet))
  = [AbortAfter 10000].
Proof. reflexivity. Qed.

Example negative_timeout_example :
  timers (fst (fetchRequest (Samples.answers (Samples.response 200 true []))
                 (Some "/api/items") (Some "get")
                 (Some (Samples.only_timeout (-1))) Samples.quiet))
  = [].
Proof. reflexivity. Qed.

(** *** The request URL (lines 58-61 against 108-110) *)

Lemma fetchFormData_issues
  (fetch : string -> RequestInit -> settled Response)
  (url : string) (data : value) (params : option Params) (w : world)
  (o : RequestInit) :
  let p := default transfer_params params in
  fetchFormData_options data p = Normal o ->
  requests (fst (fetchFormData fetch url data params w)) =
    (requests w ++ [((baseURL ++ transfer_url url p)%string, o)])%list.
Proof.
  intros p Ho. unfold fetchFormData. fold p. rewrite Ho.
  set (reqUrl := baseURL ++ _). set (w0 := record_request _ _ _).
  pose proof (intercepted_frame fetchFormData_catch fetchFormData_catch_logs
                (fetch reqUrl o) w0) as Hf.
  destruct (intercepted _ _ w0) as [w1 q]. cbn [fst] in *.
  destruct Hf as [_ Hr]. now rewrite Hr.
Qed.

(** Where the two rules agree: no query, or a query string that is not
    empty. *)
Lemma urls_agree (url : string) (params : Params) :
  match p_query params with
  | Some q => paramsFormat q <> ""
  | None => True
  end ->
  fetchRequest_url url params = transfer_url url params.
Proof.
  unfold fetchRequest_url, transfer_url.
  destruct (p_query params) as [q|]; [|reflexivity].
  intros Hq. destruct (paramsFormat q); [congruence | reflexivity].
Qed.

(** C8, what the code does.  For an empty query mapping [fetchRequest]
    requests the URL as given and [fetchFormData] the URL followed by a
    question mark: the two request URLs differ. *)
Theorem empty_query_urls_differ
  (fetch : string -> RequestInit -> settled Response)
  (url : string) (data : value) (w : world) :
  let params := Some (Samples.only_query []) in
  map fst (requests (fst (fetchRequest fetch (Some url) None params w)))
    = (map fst (requests w) ++ [url])%list
  /\ map fst (requests (fst (fetchFormData fetch url data params w)))
     = (map fst (requests w) ++ [(url ++ "?")%string])%list
  /\ url <> (url ++ "?")%string.
Proof.
  intros params. split; [|split].
  - destruct (fetchRequest_options_no_headers "get"
                (Samples.only_query []) eq_refl) as [o Ho].
    destruct (fetchRequest_issues fetch (Some url) None params w o Ho)
      as [Hr _].
    rewrite Hr, map_app. cbn. unfold fetchRequest_url. cbn.
    now rewrite append_empty.
  - assert (Ho : fetchFormData_options data (Samples.only_query [])
                 = Normal {| opt_method := "post"; opt_headers := [];
                             opt_signal := false;
                             opt_credentials := "same-origin";
                             opt_body := Some data;
                             opt_responseType := None |}) by reflexivity.
    rewrite (fetchFormData_issues fetch url data params w _ Ho), map_app.
    reflexivity.
  - apply app_nonempty_neq. discriminate.
Qed.

End RequestFacts.

(* ================================================================= *)
(** ** The loop over [params.headers] *)

Module HeaderFacts.

Import StrFacts.

(** The name every iteration appends under: the keys joined by commas. *)
Lemma Array_toString_join (keys : list string) :
  Array_toString keys = Str.join "," keys.
Proof.
  unfold Array_toString. cbn [ToString]. f_equal.
  induction keys as [|k keys IH]; cbn; [reflexivity | now f_equal].
Qed.

(** A string with a comma in it is not a header name. *)
Lemma comma_not_header_name (a b : string) :
  is_header_name (a ++ "," ++ b) = false.
Proof.
  unfold is_header_name, Str.all. rewrite chars_app, forallb_app.
  change (Str.chars ("," ++ b)) with (","%char :: Str.chars b).
  cbn [forallb]. change (is_tchar ","%char) with false.
  cbn [andb]. now rewrite !andb_false_r.
Qed.

Lemma append_under_joined_keys (h : Headers) (k1 k2 : string)
  (rest : list string) (v : string) :
  exists what,
    Headers_append h (Array_toString (k1 :: k2 :: rest)) v
    = Throw (TypeError what).
Proof.
  rewrite Array_toString_join, join_two. unfold Headers_append.
  destruct (negb (is_ByteString _ && is_ByteString v)); [now eexists|].
  rewrite comma_not_header_name. cbn [negb]. now eexists.
Qed.

(** With two keys or more the first iteration already throws. *)
Lemma several_headers_throw (kv1 kv2 : string * value) (rest : object)
  (h : Headers) :
  exists what,
    append_params_headers (Some (kv1 :: kv2 :: rest)) h
    = Throw (TypeError what).
Proof.
  destruct kv1 as [k1 v1], kv2 as [k2 v2].
  cbn [append_params_headers Object_keys map fst forEach_append].
  destruct (append_under_joined_keys h k1 k2 (map fst rest)
              (ToString (get ((k1, v1) :: (k2, v2) :: rest) k1)))
    as [what ->].
  now exists what.
Qed.

(** With one key the array of keys prints as that key: the header is
    appended under its own name. *)
Lemma single_header_own_key (k : string) (v : value) (h : Headers) :
  append_params_headers (Some [(k, v)]) h = Headers_append h k (ToString v).
Proof.
  cbn [append_params_headers Object_keys map fst forEach_append get].
  rewrite String.eqb_refl, Array_toString_join. cbn [Str.join].
  now destruct (Headers_append h k (ToString v)).
Qed.

(** C2, what the code does.  With two caller headers or more, none of the
    three functions appends any of them under its own key: the loop
    appends under the comma-joined list of all keys, [append] refuses that
    name, and the call throws a TypeError before any request is issued. *)
Theorem several_headers_are_refused
  (fetch : string -> RequestInit -> settled Response)
  (url method : option string) (target : string) (data fileType : value)
  (q : option object) (d : value) (t : option Z)
  (kv1 kv2 : string * value) (rest : object) (w : world) :
  let params :=
    Some {| p_query := q; p_data := d;
            p_headers := Some (kv1 :: kv2 :: rest); p_timeout := t |} in
  exists what what',
    fetchRequest fetch url method params w = (w, Throw (TypeError what))
    /\ fetchFormData fetch target data params w
       = (w, Throw (TypeError what'))
    /\ fetchDownloadBlob fetch target params fileType w
       = (w, Throw (TypeError what')).
Proof.
  intros params. subst params.
  destruct (several_headers_throw kv1 kv2 rest
              [("content-Type", "application/json")]) as [what H1].
  destruct (several_headers_throw kv1 kv2 rest []) as [what' H0].
  exists what, what'. unfold fetchRequest, fetchFormData, fetchDownloadBlob,
    fetchRequest_options, fetchFormData_options, fetchDownloadBlob_options.
  cbn [default p_headers p_data].
  rewrite RequestFacts.headers_json, RequestFacts.headers_empty.
  cbn [bind with_body opt_headers].
  destruct (negb (String.eqb (default "get" method) "get") && truthy d)%bool;
    cbn [with_body opt_headers]; rewrite H1, H0; cbn [bind]; auto.
Qed.

(** The mapping [{ a: '1', b: '2' }]. *)
Example two_headers_example :
  fetchRequest (Samples.answers (Samples.response 200 true []))
    (Some "/api/items") (Some "get")
    (Some (Samples.only_headers [("a", Text "1"); ("b", Text "2")]))
    Samples.quiet
  = (Samples.quiet, Throw (TypeError "Headers.append: invalid name")).
Proof. reflexivity. Qed.

Example one_header_example :
  append_params_headers (Some [("x-token", Text "t0")])
    [("content-Type", "application/json")]
  = Normal [("content-Type", "application/json"); ("x-token", "t0")].
Proof. reflexivity. Qed.

End HeaderFacts.

(* ================================================================= *)
(** ** The query string *)

Module QueryFacts.

(** Every entry of the mapping yields one pair of the query string, in
    order, the value printed by ToString: none is left out. *)
Lemma paramsFormat_entries (json : object) :
  paramsFormat json =
  Str.join "&"
    (map (fun kv => urlencoded (fst kv) ++ "=" ++ urlencoded (ToString (snd kv)))
         json).
Proof.
  unfold paramsFormat, URLSearchParams_toString, URLSearchParams_new.
  now rewrite map_map.
Qed.

(** C3, what the code does.  An entry whose value is [undefined] or [null]
    is not dropped: it appears in the query string with the text
    [undefined] or [null] as its value. *)
Theorem undefined_and_null_are_serialized (k : string) :
  paramsFormat [(k, Undefined)] = urlencoded k ++ "=undefined"
  /\ paramsFormat [(k, Null)] = urlencoded k ++ "=null"
  /\ paramsFormat [("a", Undefined); ("b", Null); ("c", Num 1)]
     = "a=undefined&b=null&c=1".
Proof. repeat split. Qed.

(** A number of 10^21 or more prints in exponent form, and its plus sign is
    percent-encoded. *)
Example large_number_example :
  paramsFormat [("big", Num (10 ^ 21)); ("n", Num (-5))] = "big=1e%2B21&n=-5".
Proof. reflexivity. Qed.

End QueryFacts.

(* ================================================================= *)
(** ** The name of a downloaded file *)

Module DownloadFacts.

Import StrFacts.

(** [decodeURI(null)] is the text [null], which is truthy: the time stamp
    of line 161 is not reached. *)
Lemma download_fileName_absent (res : Response) (now : Z) :
  Headers_get (res_headers res) "Content-Disposition" = Normal Null ->
  download_fileName res now = Normal (Text "null").
Proof. unfold download_fileName. now intros ->. Qed.

(** A header whose value decodes to a text that is not empty names the
    file. *)
Lemma download_fileName_present (res : Response) (now : Z)
  (v decoded : string) :
  Headers_get (res_headers res) "Content-Disposition" = Normal (Text v) ->
  decodeURI (Text v) = Normal decoded ->
  decoded <> "" ->
  download_fileName res now = Normal (Text decoded).
Proof.
  unfold download_fileName. intros -> Hd Hne. cbn [bind]. rewrite Hd.
  cbn [bind truthy]. destruct decoded; [congruence | reflexivity].
Qed.

(** The time stamp is the name only when the header is there and decodes
    to the empty text. *)
Lemma download_fileName_empty (res : Response) (now : Z) (v : string) :
  Headers_get (res_headers res) "Content-Disposition" = Normal (Text v) ->
  decodeURI (Text v) = Normal "" ->
  download_fileName res now = Normal (Num now).
Proof.
  unfold download_fileName. intros -> Hd. cbn [bind]. now rewrite Hd.
Qed.

(** C4, what the code does.  For a response without a Content-Disposition
    header (and with a body that is not empty) [fetchDownloadBlob] saves
    the file under the name [null], which is not the time stamp. *)
Theorem missing_disposition_saves_null
  (url : string) (fileType : value) (w : world)
  (status : Z) (ok : bool) (json : settled value)
  (b : byte) (bs : list byte) :
  let res := {| res_status := status; res_ok := ok; res_headers := [];
                res_json := json; res_arrayBuffer := Fulfilled (b :: bs) |} in
  downloads (fst (fetchDownloadBlob (Samples.answers res) url None
                    fileType w))
  = (downloads w ++ [{| file_name := "null"; file_bytes := b :: bs;
                        file_type := Blob_type fileType |}])%list
  /\ ToString (Num (clock w)) <> "null".
Proof.
  intros res. split; [|apply NumberFacts.Number_toString_not_null].
  unfold fetchDownloadBlob. cbn [default].
  change (fetchDownloadBlob_options transfer_params)
    with (Normal {| opt_method := "get"; opt_headers := [];
                    opt_signal := false; opt_credentials := "same-origin";
                    opt_body := None;
                    opt_responseType := Some "arraybuffer" |}).
  cbv beta iota. unfold Samples.answers.
  cbn [promise_then]. unfold fetchDownloadBlob_read.
  rewrite (download_fileName_absent res _ eq_refl).
  cbn [settle promise_then]. unfold fetchDownloadBlob_save.
  cbn [buffer res_arrayBuffer res fileName ToString].
  change (Z.of_nat (List.length (b :: bs)) >? 0) with true.
  cbn [settle promise_catch fst downloads save_file record_request].
  reflexivity.
Qed.

(** A header with a percent-encoded name, and the name it gives. *)
Example disposition_example :
  download_fileName
    (Samples.response 200 true
       [("content-disposition", "report%20%E4%B8%AD.csv")])
    1700000000000
  = Normal (Text "report 中.csv").
Proof. reflexivity. Qed.

End DownloadFacts.

(* ================================================================= *)
(** ** What [fetchDownloadBlob] does to the world *)

Module DownloadChainFacts.

Import StrFacts.

Lemma fetchDownloadBlob_throws
  (fetch : string -> RequestInit -> settled Response)
  (url : string) (params : option Params) (fileType : value) (w : world)
  (e : thrown) :
  fetchDownloadBlob_options (default transfer_params params) = Throw e ->
  fetchDownloadBlob fetch url params fileType w = (w, Throw e).
Proof. intros He. unfold fetchDownloadBlob. now rewrite He. Qed.

(** The whole call, once the options are built, by cases on what the
    network answers. *)
Lemma fetchDownloadBlob_run
  (fetch : string -> RequestInit -> settled Response)
  (url : string) (params : option Params) (fileType : value) (w : world)
  (o : RequestInit) :
  let p := default transfer_params params in
  let reqUrl := baseURL ++ transfer_url url p in
  let w0 := record_request reqUrl o w in
  fetchDownloadBlob_options p = Normal o ->
  fetchDownloadBlob fetch url params fileType w =
  (match fetch reqUrl o with
   | Rejected _ => w0
   | Fulfilled res =>
       match download_fileName res (clock w) with
       | Throw _ => w0
       | Normal name =>
           match res_arrayBuffer res with
           | Rejected _ => w0
           | Fulfilled bytes =>
               if Z.of_nat (List.length bytes) >? 0
               then save_file {| file_name := ToString name;
                                 file_bytes := bytes;
                                 file_type := Blob_type fileType |} w0
               else console_log
                      (ConsoleError
                         [LogText "文件导出错误, 服务器暂无相关文件资源."]) w0
           end
       end
   end,
   Normal (Fulfilled Undefined)).
Proof.
  intros p reqUrl w0 Ho. unfold fetchDownloadBlob. fold p. rewrite Ho.
  fold reqUrl. fold w0.
  destruct (fetch reqUrl o) as [res|e]; cbn [promise_then];
    [|reflexivity].
  unfold fetchDownloadBlob_read. change (clock w0) with (clock w).
  destruct (download_fileName res (clock w)) as [name|e];
    cbn [settle promise_then]; [|reflexivity].
  unfold fetchDownloadBlob_save. cbn [buffer fileName].
  destruct (res_arrayBuffer res) as [bytes|e]; [|reflexivity].
  destruct (Z.of_nat (List.length bytes) >? 0); reflexivity.
Qed.

(** X1.  Once [fetchDownloadBlob] has issued its request, the promise it
    returns is fulfilled with [undefined] whatever the network answers: a
    rejected request, a header that does not decode, an empty or a failing
    body never reach the caller. *)
Theorem download_promise_resolves_undefined
  (fetch : string -> RequestInit -> settled Response)
  (url : string) (params : option Params) (fileType : value) (w : world)
  (o : RequestInit) :
  fetchDownloadBlob_options (default transfer_params params) = Normal o ->
  snd (fetchDownloadBlob fetch url params fileType w)
  = Normal (Fulfilled Undefined).
Proof.
  intros Ho. now rewrite (fetchDownloadBlob_run fetch url params fileType w o Ho).
Qed.

Lemma download_promise_resolves_undefined_witness :
  exists o,
    fetchDownloadBlob_options transfer_params = Normal o
    /\ snd (fetchDownloadBlob (Samples.fails Samples.network_down) "/file"
              None (Text "text/csv") Samples.quiet)
       = Normal (Fulfilled Undefined).
Proof.
  eexists. split; [reflexivity|].
  exact (download_promise_resolves_undefined
           (Samples.fails Samples.network_down) "/file" None
           (Text "text/csv") Samples.quiet _ eq_refl).
Defined.

(** X2.  A download that fails before the body is read is lost without a
    trace: when the request is rejected, or when the Content-Disposition
    value is not a well-formed URI text, nothing is saved and nothing is
    written to the console; the only effect of the call is its request. *)
Theorem download_failure_is_silent
  (fetch : string -> RequestInit -> settled Response)
  (url : string) (params : option Params) (fileType : value) (w : world)
  (o : RequestInit) :
  let p := default transfer_params params in
  let reqUrl := baseURL ++ transfer_url url p in
  fetchDownloadBlob_options p = Normal o ->
  (match fetch reqUrl o with
   | Rejected _ => True
   | Fulfilled res =>
       exists v e,
         Headers_get (res_headers res) "Content-Disposition" = Normal (Text v)
         /\ decodeURI (Text v) = Throw e
   end) ->
  fst (fetchDownloadBlob fetch url params fileType w)
  = record_request reqUrl o w.
Proof.
  intros p reqUrl Ho Hfail.
  rewrite (fetchDownloadBlob_run fetch url params fileType w o Ho).
  fold p. fold reqUrl. cbn [fst].
  destruct (fetch reqUrl o) as [res|e]; [|reflexivity].
  destruct Hfail as (v & e & Hget & Hdec).
  unfold download_fileName. rewrite Hget. cbn [bind]. now rewrite Hdec.
Qed.

Lemma download_failure_is_silent_witness :
  let res := Samples.response 200 true [("Content-Disposition", "50%.csv")] in
  exists o,
    fetchDownloadBlob_options transfer_params = Normal o
    /\ (exists v e,
          Headers_get (res_headers res) "Content-Disposition"
          = Normal (Text v)
          /\ decodeURI (Text v) = Throw e)
    /\ fst (fetchDownloadBlob (Samples.answers res) "/file" None
              (Text "text/csv") Samples.quiet)
       = record_request "/file?" o Samples.quiet.
Proof.
  eexists. split; [reflexivity|].
  split; [exists "50%.csv", URIError; split; reflexivity|].
  exact (download_failure_is_silent
           (Samples.answers
              (Samples.response 200 true
                 [("Content-Disposition", "50%.csv")]))
           "/file" None (Text "text/csv") Samples.quiet _ eq_refl
           (ex_intro _ "50%.csv"
              (ex_intro _ URIError (conj eq_refl eq_refl)))).
Defined.

(** X3.  A response whose body is empty saves no file.  The console
    receives one [console.error] line instead, unless [decodeURI] throws on
    the Content-Disposition value: the first reaction then fails before
    the body is looked at, and nothing is written. *)
Theorem empty_body_is_reported
  (fetch : string -> RequestInit -> settled Response)
  (url : string) (params : option Params) (fileType : value) (w : world)
  (o : RequestInit) (res : Response) :
  let p := default transfer_params params in
  fetchDownloadBlob_options p = Normal o ->
  fetch (baseURL ++ transfer_url url p) o = Fulfilled res ->
  res_arrayBuffer res = Fulfilled [] ->
  let w' := fst (fetchDownloadBlob fetch url params fileType w) in
  downloads w' = downloads w
  /\ console w' =
     (console w
      ++ match bind (Headers_get (res_headers res) "Content-Disposition")
                 decodeURI with
         | Normal _ =>
             [ConsoleError [LogText "文件导出错误, 服务器暂无相关文件资源."]]
         | Throw _ => []
         end)%list.
Proof.
  intros p Ho Hres Hbuf.
  rewrite (fetchDownloadBlob_run fetch url params fileType w o Ho).
  fold p. rewrite Hres, Hbuf. unfold download_fileName.
  destruct (Headers_get (res_headers res) "Content-Disposition")
    as [disposition|e]; cbn [bind];
    [destruct (decodeURI disposition) as [decoded|e]|]; cbn;
    rewrite ?app_nil_r; auto.
Qed.

Lemma empty_body_is_reported_witness :
  let res := {| res_status := 200; res_ok := true; res_headers := [];
                res_json := Fulfilled Null;
                res_arrayBuffer := Fulfilled [] |} in
  let w' := fst (fetchDownloadBlob (Samples.answers res) "/file" None
                   (Text "text/csv") Samples.quiet) in
  exists o,
    fetchDownloadBlob_options transfer_params = Normal o
    /\ Samples.answers res (baseURL ++ transfer_url "/file" transfer_params) o
       = Fulfilled res
    /\ res_arrayBuffer res = Fulfilled []
    /\ downloads w' = downloads Samples.quiet
    /\ console w' =
       (console Samples.quiet
        ++ [ConsoleError
              [LogText "文件导出错误, 服务器暂无相关文件资源."]])%list.
Proof.
  eexists. split; [reflexivity|]. split; [reflexivity|].
  split; [reflexivity|].
  exact (empty_body_is_reported
           (Samples.answers
              {| res_status := 200; res_ok := true; res_headers := [];
                 res_json := Fulfilled Null;
                 res_arrayBuffer := Fulfilled [] |})
           "/file" None (Text "text/csv") Samples.quiet _ _
           eq_refl eq_refl eq_refl).
Defined.

(** An empty body behind a Content-Disposition that does not decode. *)
Example empty_body_unreported_example :
  console
    (fst (fetchDownloadBlob
            (Samples.answers
               {| res_status := 200; res_ok := true;
                  res_headers := [("Content-Disposition", "50%.csv")];
                  res_json := Fulfilled Null;
                  res_arrayBuffer := Fulfilled [] |})
            "/file" None (Text "text/csv") Samples.quiet))
  = [].
Proof. reflexivity. Qed.

(** X4.  A call of [fetchDownloadBlob] saves at most one file, and a file
    it saves comes from the response to the call's own request: its bytes
    are exactly those of that response's body, which are not empty, its
    name is the one computed from that response, and its type is the one
    the Blob constructor makes of the caller's [fileType] (lower case;
    empty for [undefined] or for a character outside printable ASCII). *)
Theorem download_saves_the_body
  (fetch : string -> RequestInit -> settled Response)
  (url : string) (params : option Params) (fileType : value) (w : world) :
  let p := default transfer_params params in
  let w' := fst (fetchDownloadBlob fetch url params fileType w) in
  downloads w' = downloads w
  \/ exists o res name bytes,
       fetchDownloadBlob_options p = Normal o
       /\ fetch (baseURL ++ transfer_url url p) o = Fulfilled res
       /\ download_fileName res (clock w) = Normal name
       /\ res_arrayBuffer res = Fulfilled bytes
       /\ bytes <> []
       /\ downloads w' =
          (downloads w ++ [{| file_name := ToString name;
                              file_bytes := bytes;
                              file_type := Blob_type fileType |}])%list.
Proof.
  intros p w'. subst w'.
  destruct (fetchDownloadBlob_options p) as [o|e] eqn:Ho.
  - rewrite (fetchDownloadBlob_run fetch url params fileType w o Ho).
    cbn [fst]. fold p.
    set (reqUrl := baseURL ++ _).
    destruct (fetch reqUrl o) as [res|e] eqn:Hres; [|now left].
    destruct (download_fileName res (clock w)) as [name|e] eqn:Hname;
      [|now left].
    destruct (res_arrayBuffer res) as [bytes|e] eqn:Hbuf; [|now left].
    destruct bytes as [|b bs]; [now left|].
    right. exists o, res, name, (b :: bs).
    repeat split; try assumption; try discriminate.
  - rewrite (fetchDownloadBlob_throws fetch url params fileType w e Ho).
    now left.
Qed.

(** The type of the saved blob for a type written in capitals. *)
Example blob_type_example :
  map file_type
    (downloads
       (fst (fetchDownloadBlob
               (Samples.answers (Samples.response 200 true []))
               "/file" None (Text "Text/CSV") Samples.quiet)))
  = ["text/csv"].
Proof. reflexivity. Qed.

End DownloadChainFacts.

(* ================================================================= *)
(** ** The shape of the requests and of their side effects *)

Module RequestShapeFacts.

Import StrFacts ChainFacts RequestFacts DownloadChainFacts.

(** [append] only ever adds at the end. *)
Lemma Headers_append_extends (h h' : Headers) (name v : string) :
  Headers_append h name v = Normal h' ->
  exists name', h' = (h ++ [(name', normalize_value v)])%list.
Proof.
  unfold Headers_append.
  destruct (negb (is_ByteString name && is_ByteString v)); [discriminate|].
  destruct (negb (is_header_name name)); [discriminate|].
  destruct (negb (is_header_value (normalize_value v))); [discriminate|].
  intros H. inversion H. now eexists.
Qed.

Lemma forEach_append_extends (keys : list string) (hs : object)
  (items : list string) (h h' : Headers) :
  forEach_append keys hs items h = Normal h' ->
  exists extra, h' = (h ++ extra)%list.
Proof.
  revert h. induction items as [|item items IH]; intros h; cbn [forEach_append].
  - intros H. inversion H. exists []. now rewrite app_nil_r.
  - destruct (Headers_append h _ _) as [h1|e] eqn:Ha; cbn [bind];
      [|discriminate].
    intros H. destruct (Headers_append_extends _ _ _ _ Ha) as [name' ->].
    destruct (IH _ H) as [extra ->]. rewrite <- app_assoc. now eexists.
Qed.

Lemma append_params_headers_extends (hs : option object) (h h' : Headers) :
  append_params_headers hs h = Normal h' ->
  exists extra, h' = (h ++ extra)%list.
Proof.
  destruct hs as [o|]; cbn [append_params_headers].
  - apply forEach_append_extends.
  - intros H. inversion H. exists []. now rewrite app_nil_r.
Qed.

Lemma fetchFormData_throws
  (fetch : string -> RequestInit -> settled Response)
  (url : string) (data : value) (params : option Params) (w : world)
  (e : thrown) :
  fetchFormData_options data (default transfer_params params) = Throw e ->
  fetchFormData fetch url data params w = (w, Throw e).
Proof. intros He. unfold fetchFormData. now rewrite He. Qed.

Lemma fetchFormData_timers
  (fetch : string -> RequestInit -> settled Response)
  (url : string) (data : value) (params : option Params) (w : world) :
  timers (fst (fetchFormData fetch url data params w)) = timers w.
Proof.
  unfold fetchFormData.
  destruct (fetchFormData_options data (default transfer_params params))
    as [o|e]; [|reflexivity].
  set (reqUrl := baseURL ++ _). set (w0 := record_request _ _ _).
  pose proof (intercepted_frame fetchFormData_catch fetchFormData_catch_logs
                (fetch reqUrl o) w0) as Hf.
  destruct (intercepted _ _ w0) as [w1 q]. cbn [fst] in *. now destruct Hf.
Qed.

Lemma fetchDownloadBlob_timers
  (fetch : string -> RequestInit -> settled Response)
  (url : string) (params : option Params) (fileType : value) (w : world) :
  timers (fst (fetchDownloadBlob fetch url params fileType w)) = timers w.
Proof.
  destruct (fetchDownloadBlob_options (default transfer_params params))
    as [o|e] eqn:Ho.
  - rewrite (fetchDownloadBlob_run fetch url params fileType w o Ho).
    cbn [fst].
    destruct (fetch _ o) as [res|e]; [|reflexivity].
    destruct (download_fileName res (clock w)); [|reflexivity].
    destruct (res_arrayBuffer res) as [bytes|e]; [|reflexivity].
    now destruct (Z.of_nat (List.length bytes) >? 0).
  - now rewrite (fetchDownloadBlob_throws fetch url params fileType w e Ho).
Qed.

(** X5.  Uploads and downloads cannot time out: [fetchFormData] and
    [fetchDownloadBlob] never schedule a timer, whatever their arguments
    and whatever the network answers. *)
Theorem transfers_schedule_no_timer
  (fetch : string -> RequestInit -> settled Response)
  (url : string) (data fileType : value) (params : option Params)
  (w : world) :
  timers (fst (fetchFormData fetch url data params w)) = timers w
  /\ timers (fst (fetchDownloadBlob fetch url params fileType w)) = timers w.
Proof.
  split; [apply fetchFormData_timers | apply fetchDownloadBlob_timers].
Qed.



(** A timeout of 2147484 seconds: the product no longer fits a [long], the
    timer is armed with 0 and the request is aborted at once. *)
Example long_timeout_example :
  timers (fst (fetchRequest (Samples.answers (Samples.response 200 true []))
                 (Some "/api") None (Some (Samples.only_timeout 2147484))
                 Samples.quiet))
  = [AbortAfter 0].
Proof. reflexivity. Qed.

(** X7.  Falsy data cannot be sent: whatever the method, a request issued
    by [fetchRequest] with a [params.data] that is [0], [false], [null],
    the empty string or missing has no body. *)
Theorem falsy_data_sends_no_body
  (fetch : string -> RequestInit -> settled Response)
  (url method : option string) (params : option Params) (w : world)
  (u : string) (o : RequestInit) :
  truthy (p_data (default fetchRequest_params params)) = false ->
  requests (fst (fetchRequest fetch url method params w))
    = (requests w ++ [(u, o)])%list ->
  opt_body o = None.
Proof.
  intros Hd Hreq. apply issued_request in Hreq.
  apply fetchRequest_options_body in Hreq.
  now rewrite Hd, andb_false_r in Hreq.
Qed.

Lemma falsy_data_sends_no_body_witness :
  exists u o,
    truthy (Num 0) = false
    /\ requests
         (fst (fetchRequest (Samples.answers (Samples.response 200 true []))
                 (Some "/count") (Some "post")
                 (Some (Samples.only_data (Num 0))) Samples.quiet))
       = (requests Samples.quiet ++ [(u, o)])%list
    /\ opt_body o = None.
Proof.
  eexists. eexists. split; [reflexivity|]. split; [reflexivity|].
  exact (falsy_data_sends_no_body
           (Samples.answers (Samples.response 200 true []))
           (Some "/count") (Some "post")
           (Some (Samples.only_data (Num 0))) Samples.quiet _ _
           eq_refl eq_refl).
Defined.

(** X8.  Each of the three exported functions either throws before it has
    done anything, leaving the world as it was (no timer, no request, no
    console line), or issues exactly one request and returns a promise
    that is fulfilled. *)
Theorem calls_throw_early_or_issue_one_request
  (fetch : string -> RequestInit -> settled Response)
  (url method : option string) (target : string) (data fileType : value)
  (params : option Params) (w : world) :
  ((exists e, fetchRequest fetch url method params w = (w, Throw e))
   \/ exists w' v u o,
        fetchRequest fetch url method params w = (w', Normal (Fulfilled v))
        /\ requests w' = (requests w ++ [(u, o)])%list)
  /\ ((exists e, fetchFormData fetch target data params w = (w, Throw e))
      \/ exists w' v u o,
           fetchFormData fetch target data params w
           = (w', Normal (Fulfilled v))
           /\ requests w' = (requests w ++ [(u, o)])%list)
  /\ ((exists e,
         fetchDownloadBlob fetch target params fileType w = (w, Throw e))
      \/ exists w' v u o,
           fetchDownloadBlob fetch target params fileType w
           = (w', Normal (Fulfilled v))
           /\ requests w' = (requests w ++ [(u, o)])%list).
Proof.
  split; [|split].
  - destruct (fetchRequest_options (default "get" method)
                (default fetchRequest_params params)) as [o|e] eqn:Ho.
    + right.
      destruct (fetchRequest_issues fetch url method params w o Ho)
        as [Hr _].
      revert Hr. unfold fetchRequest. rewrite Ho.
      set (reqUrl := baseURL ++ _). set (w0 := record_request _ _ _).
      destruct (intercepted_swallows (fetchRequest_catch reqUrl)
                  (fetchRequest_catch_logs reqUrl) (fun s w => eq_refl)
                  (fetch reqUrl o) w0) as (w1 & v & -> & _).
      cbn [fst]. intros Hr. now exists w1, v, reqUrl, o.
    + left. exists e. now apply fetchRequest_throws.
  - destruct (fetchFormData_options data (default transfer_params params))
      as [o|e] eqn:Ho.
    + right.
      pose proof (fetchFormData_issues fetch target data params w o Ho)
        as Hr.
      revert Hr. unfold fetchFormData. rewrite Ho.
      set (reqUrl := baseURL ++ _). set (w0 := record_request _ _ _).
      destruct (intercepted_swallows fetchFormData_catch
                  fetchFormData_catch_logs (fun s w => eq_refl)
                  (fetch reqUrl o) w0) as (w1 & v & -> & _).
      cbn [fst]. intros Hr. now exists w1, v, reqUrl, o.
    + left. exists e. now apply fetchFormData_throws.
  - destruct (fetchDownloadBlob_options (default transfer_params params))
      as [o|e] eqn:Ho.
    + right.
      rewrite (fetchDownloadBlob_run fetch target params fileType w o Ho).
      eexists _, Undefined, _, o. split; [reflexivity|].
      destruct (fetch _ o) as [res|e]; [|reflexivity].
      destruct (download_fileName res (clock w)); [|reflexivity].
      destruct (res_arrayBuffer res) as [bytes|e]; [|reflexivity].
      now destruct (Z.of_nat (List.length bytes) >? 0).
    + left. exists e. now apply fetchDownloadBlob_throws.
Qed.

Lemma fetchRequest_options_shape (method : string) (params : Params)
  (o : RequestInit) :
  fetchRequest_options method params = Normal o ->
  opt_method o = method
  /\ opt_credentials o = "same-origin"
  /\ opt_signal o = true
  /\ exists extra,
       opt_headers o = ("content-Type", "application/json") :: extra.
Proof.
  unfold fetchRequest_options. rewrite headers_json. cbn [bind].
  destruct (negb (String.eqb method "get") && truthy (p_data params))%bool;
    cbn [with_body opt_headers];
    destruct (append_params_headers _ _) as [h|e] eqn:Hh; cbn [bind];
    intros H; inversion H; cbn;
    destruct (append_params_headers_extends _ _ _ Hh) as [extra ->];
    repeat split; now exists extra.
Qed.

(** X9.  A request issued by [fetchRequest] carries the method exactly as
    the caller wrote it, the credentials mode [same-origin] and the signal
    of the call's abort controller; its first header is always
    [content-Type: application/json]: the caller's headers come after it
    and never remove it. *)
Theorem fetchRequest_request_shape
  (fetch : string -> RequestInit -> settled Response)
  (url method : option string) (params : option Params) (w : world)
  (u : string) (o : RequestInit) :
  requests (fst (fetchRequest fetch url method params w))
    = (requests w ++ [(u, o)])%list ->
  opt_method o = default "get" method
  /\ opt_credentials o = "same-origin"
  /\ opt_signal o = true
  /\ exists extra,
       opt_headers o = ("content-Type", "application/json") :: extra.
Proof.
  intros Hreq. apply issued_request in Hreq.
  exact (fetchRequest_options_shape _ _ _ Hreq).
Qed.

Lemma fetchRequest_request_shape_witness :
  exists u o,
    requests
      (fst (fetchRequest (Samples.answers (Samples.response 200 true []))
              (Some "/api") (Some "Put")
              (Some (Samples.only_headers [("x-token", Text "t0")]))
              Samples.quiet))
    = (requests Samples.quiet ++ [(u, o)])%list
    /\ opt_method o = "Put"
    /\ opt_credentials o = "same-origin"
    /\ opt_signal o = true
    /\ exists extra,
         opt_headers o = ("content-Type", "application/json") :: extra.
Proof.
  eexists. eexists. split; [reflexivity|].
  exact (fetchRequest_request_shape
           (Samples.answers (Samples.response 200 true []))
           (Some "/api") (Some "Put")
           (Some (Samples.only_headers [("x-token", Text "t0")]))
           Samples.quiet _ _ eq_refl).
Defined.

Lemma issued_upload
  (fetch : string -> RequestInit -> settled Response)
  (url : string) (data : value) (params : option Params) (w : world)
  (u : string) (o : RequestInit) :
  requests (fst (fetchFormData fetch url data params w))
    = (requests w ++ [(u, o)])%list ->
  fetchFormData_options data (default transfer_params params) = Normal o
  /\ u = baseURL ++ transfer_url url (default transfer_params params).
Proof.
  intros Hreq.
  destruct (fetchFormData_options data (default transfer_params params))
    as [o1|e] eqn:Ho.
  - rewrite (fetchFormData_issues fetch url data params w o1 Ho) in Hreq.
    apply app_inv_head in Hreq. now inversion Hreq.
  - rewrite (fetchFormData_throws fetch url data params w e Ho) in Hreq.
    cbn [fst] in Hreq. apply (f_equal (@List.length _)) in Hreq.
    rewrite List.length_app in Hreq. cbn in Hreq. lia.
Qed.

(** X10.  An upload is always a POST whose body is the caller's [data]
    itself, untouched (not serialized, and sent even when it is falsy),
    with credentials [same-origin] and without an abort signal. *)
Theorem upload_request_shape
  (fetch : string -> RequestInit -> settled Response)
  (url : string) (data : value) (params : option Params) (w : world)
  (u : string) (o : RequestInit) :
  requests (fst (fetchFormData fetch url data params w))
    = (requests w ++ [(u, o)])%list ->
  opt_method o = "post"
  /\ opt_body o = Some data
  /\ opt_credentials o = "same-origin"
  /\ opt_signal o = false.
Proof.
  intros Hreq. apply issued_upload in Hreq as [Ho _]. revert Ho.
  unfold fetchFormData_options. rewrite headers_empty. cbn [bind opt_headers].
  destruct (append_params_headers _ _) as [h|e]; cbn [bind];
    intros H; inversion H; auto.
Qed.

Lemma upload_request_shape_witness :
  exists u o,
    requests
      (fst (fetchFormData (Samples.answers (Samples.response 200 true []))
              "/upload" Undefined None Samples.quiet))
    = (requests Samples.quiet ++ [(u, o)])%list
    /\ opt_method o = "post"
    /\ opt_body o = Some Undefined
    /\ opt_credentials o = "same-origin"
    /\ opt_signal o = false.
Proof.
  eexists. eexists. split; [reflexivity|].
  exact (upload_request_shape
           (Samples.answers (Samples.response 200 true []))
           "/upload" Undefined None Samples.quiet _ _ eq_refl).
Defined.

(** X11.  The caller cannot replace the content type of [fetchRequest]: a
    single caller header whose name is Content-Type in any letter case is
    added as a second header under the spelling [content-Type], so that
    the request's content type reads [application/json] followed by the
    caller's value. *)
Theorem content_type_is_not_replaced
  (fetch : string -> RequestInit -> settled Response)
  (url method : option string) (params : option Params) (w : world)
  (k : string) (v : value) (u : string) (o : RequestInit) :
  p_headers (default fetchRequest_params params) = Some [(k, v)] ->
  Str.eq_nocase "content-Type" k = true ->
  requests (fst (fetchRequest fetch url method params w))
    = (requests w ++ [(u, o)])%list ->
  opt_headers o
  = [("content-Type", "application/json");
     ("content-Type", normalize_value (ToString v))]
  /\ Headers_get (opt_headers o) "Content-Type"
     = Normal (Text ("application/json, " ++ normalize_value (ToString v))).
Proof.
  intros Hh Hk Hreq. apply issued_request in Hreq.
  assert (Hheaders :
            opt_headers o
            = [("content-Type", "application/json");
               ("content-Type", normalize_value (ToString v))]).
  { revert Hreq. unfold fetchRequest_options. rewrite headers_json, Hh.
    cbn [bind].
    assert (Happ : forall h',
               append_params_headers (Some [(k, v)])
                 [("content-Type", "application/json")] = Normal h' ->
               h' = [("content-Type", "application/json");
                     ("content-Type", normalize_value (ToString v))]).
    { intros h'. rewrite HeaderFacts.single_header_own_key.
      unfold Headers_append.
      destruct (negb (is_ByteString k && is_ByteString (ToString v)));
        [discriminate|].
      destruct (negb (is_header_name k)); [discriminate|].
      destruct (negb (is_header_value (normalize_value (ToString v))));
        [discriminate|].
      cbn [find]. unfold header_names_match. cbn [fst]. rewrite Hk.
      cbn [fst app].
      intros H. now inversion H. }
    destruct (negb (String.eqb (default "get" method) "get")
              && truthy (p_data (default fetchRequest_params params)))%bool;
      cbn [with_body opt_headers];
      destruct (append_params_headers _ _) as [h|e] eqn:Ha; cbn [bind];
      intros H; inversion H; cbn [with_headers opt_headers];
      now apply Happ. }
  split; [exact Hheaders|]. rewrite Hheaders. reflexivity.
Qed.

Lemma content_type_is_not_replaced_witness :
  exists u o,
    p_headers (Samples.only_headers [("Content-Type", Text "text/plain")])
    = Some [("Content-Type", Text "text/plain")]
    /\ Str.eq_nocase "content-Type" "Content-Type" = true
    /\ requests
         (fst (fetchRequest (Samples.answers (Samples.response 200 true []))
                 (Some "/api") (Some "post")
                 (Some (Samples.only_headers
                          [("Content-Type", Text "text/plain")]))
                 Samples.quiet))
       = (requests Samples.quiet ++ [(u, o)])%list
    /\ Headers_get (opt_headers o) "Content-Type"
       = Normal (Text "application/json, text/plain").
Proof.
  eexists. eexists. split; [reflexivity|]. split; [reflexivity|].
  split; [reflexivity|].
  exact (proj2 (content_type_is_not_replaced
                  (Samples.answers (Samples.response 200 true []))
                  (Some "/api") (Some "post")
                  (Some (Samples.only_headers
                           [("Content-Type", Text "text/plain")]))
                  Samples.quiet "Content-Type" (Text "text/plain") _ _
                  eq_refl eq_refl eq_refl)).
Defined.

(** X12.  When the request of [fetchRequest] is rejected with an error
    object, the console receives one line: the time-out line with the full
    request URL (query string included) if the error's message contains
    [The user aborted a request], and the generic line with the error
    otherwise. *)
Theorem rejected_request_is_logged
  (fetch : string -> RequestInit -> settled Response)
  (url method : option string) (params : option Params) (w : world)
  (o : RequestInit) (name message : string) :
  let p := default fetchRequest_params params in
  let reqUrl := baseURL ++ fetchRequest_url (default "" url) p in
  fetchRequest_options (default "get" method) p = Normal o ->
  fetch reqUrl o = Rejected (ThrowError name message) ->
  console (fst (fetchRequest fetch url method params w)) =
  (console w
   ++ [if Str.includes message "The user aborted a request"
       then ConsoleError [LogText "请求超时: "; LogText reqUrl]
       else ConsoleError [LogText "请求错误: ";
                          LogThrown (ThrowError name message)]])%list.
Proof.
  intros p reqUrl Ho Hrej. unfold fetchRequest. fold p. rewrite Ho.
  fold reqUrl. rewrite Hrej. unfold intercepted.
  cbn [promise_then promise_catch]. unfold fetchRequest_catch.
  destruct (Str.includes message _); cbn [settle fst console console_log];
    cbn [record_request console]; now rewrite console_fetchRequest_timer.
Qed.

Lemma rejected_request_is_logged_witness :
  let aborted := ThrowError "AbortError" "The user aborted a request." in
  let params := Some (Samples.only_query [("page", Num 2)]) in
  exists o,
    fetchRequest_options "get" (Samples.only_query [("page", Num 2)])
    = Normal o
    /\ Samples.fails aborted "/api?page=2" o = Rejected aborted
    /\ console (fst (fetchRequest (Samples.fails aborted) (Some "/api") None
                       params Samples.quiet))
       = [ConsoleError [LogText "请求超时: "; LogText "/api?page=2"]].
Proof.
  eexists. split; [reflexivity|]. split; [reflexivity|].
  exact (rejected_request_is_logged
           (Samples.fails
              (ThrowError "AbortError" "The user aborted a request."))
           (Some "/api") None
           (Some (Samples.only_query [("page", Num 2)])) Samples.quiet _
           "AbortError" "The user aborted a request." eq_refl eq_refl).
Defined.

End RequestShapeFacts.

(* ================================================================= *)
(** ** The query string, read back *)

Module QueryStringFacts.

Import StrFacts Reading.

Lemma chars_of_chars (l : list ascii) : Str.chars (Str.of_chars l) = l.
Proof. apply list_ascii_of_string_of_list_ascii. Qed.

Lemma chars_inj (a b : string) : Str.chars a = Str.chars b -> a = b.
Proof.
  intros H. apply (f_equal string_of_list_ascii) in H.
  unfold Str.chars in H. now rewrite !string_of_list_ascii_of_string in H.
Qed.

(** Byte by byte: what [urlencoded] writes is made of component characters
    and reads back as the byte. *)
Lemma urlencoded_byte_chars (c : ascii) :
  forallb component_char (urlencoded_byte c) = true.
Proof. destruct c as [[] [] [] [] [] [] [] []]; reflexivity. Qed.

Lemma form_decode_byte (c : ascii) (rest : list ascii) :
  form_decode (urlencoded_byte c ++ rest) = c :: form_decode rest.
Proof. destruct c as [[] [] [] [] [] [] [] []]; reflexivity. Qed.

Lemma chars_urlencoded (s : string) :
  Str.chars (urlencoded s) = flat_map urlencoded_byte (Str.chars s).
Proof. unfold urlencoded. apply chars_of_chars. Qed.

Lemma urlencoded_chars (s : string) :
  forallb component_char (Str.chars (urlencoded s)) = true.
Proof.
  rewrite chars_urlencoded.
  induction (Str.chars s) as [|c l IH]; [reflexivity|].
  cbn [flat_map]. now rewrite forallb_app, urlencoded_byte_chars, IH.
Qed.

(** Reading an encoded text gives the text back. *)
Lemma form_decode_urlencoded (s : string) :
  form_decode (Str.chars (urlencoded s)) = Str.chars s.
Proof.
  rewrite chars_urlencoded.
  induction (Str.chars s) as [|c l IH]; [reflexivity|].
  cbn [flat_map]. now rewrite form_decode_byte, IH.
Qed.

Lemma urlencoded_inj (a b : string) : urlencoded a = urlencoded b -> a = b.
Proof.
  intros H. apply chars_inj.
  now rewrite <- (form_decode_urlencoded a), <- (form_decode_urlencoded b), H.
Qed.

(** A separator never occurs inside an encoded component. *)
Lemma separator_not_in_component (sep : ascii) (s : string) :
  component_char sep = false -> ~ In sep (Str.chars (urlencoded s)).
Proof.
  intros Hsep Hin. pose proof (urlencoded_chars s) as Hall.
  rewrite forallb_forall in Hall. apply Hall in Hin. congruence.
Qed.

Lemma chars_pair (kv : string * string) :
  Str.chars (URLSearchParams_pair kv) =
  (Str.chars (urlencoded (fst kv))
   ++ "="%char :: Str.chars (urlencoded (snd kv)))%list.
Proof. unfold URLSearchParams_pair. now rewrite chars_app. Qed.

Lemma chars_join_more (x y : string) (rest : list string) :
  Str.chars (Str.join "&" (x :: y :: rest)) =
  (Str.chars x ++ "&"%char :: Str.chars (Str.join "&" (y :: rest)))%list.
Proof. rewrite join_two. now rewrite chars_app. Qed.

Lemma join_chars (P : ascii -> bool) (parts : list string) :
  P "&"%char = true ->
  (forall x, In x parts -> forallb P (Str.chars x) = true) ->
  forallb P (Str.chars (Str.join "&" parts)) = true.
Proof.
  intros Hsep. induction parts as [|x parts IH]; intros Hparts;
    [reflexivity|].
  destruct parts as [|y parts]; [apply Hparts; now left|].
  rewrite chars_join_more, forallb_app. cbn [forallb].
  rewrite Hsep, (Hparts x (or_introl eq_refl)), IH; [reflexivity|].
  intros z Hz. apply Hparts. now right.
Qed.

(** X13.  The query string [paramsFormat] returns is made of ASCII letters
    and digits and of the characters [* - . _ + % = &] only, whatever the
    keys and values are: no space, no [?], no [#], no byte outside
    ASCII. *)
Theorem paramsFormat_is_url_safe (json : object) :
  Str.all query_char (paramsFormat json) = true.
Proof.
  unfold Str.all, paramsFormat, URLSearchParams_toString.
  apply join_chars; [reflexivity|].
  intros x Hx. apply in_map_iff in Hx as (kv & <- & _).
  rewrite chars_pair, forallb_app. cbn [forallb].
  assert (Hweak : forall l, forallb component_char l = true ->
                            forallb query_char l = true).
  { intros l Hl. rewrite forallb_forall in *. intros c Hc.
    unfold query_char. now rewrite (Hl c Hc). }
  now rewrite !(Hweak _ (urlencoded_chars _)).
Qed.

Lemma pair_not_empty (kv : string * string) : URLSearchParams_pair kv <> "".
Proof.
  intros H. apply (f_equal Str.chars) in H. rewrite chars_pair in H.
  destruct (Str.chars (urlencoded (fst kv))); discriminate.
Qed.

Lemma join_not_empty (x : string) (rest : list string) :
  x <> "" -> Str.join "&" (x :: rest) <> "".
Proof.
  intros Hx. destruct rest as [|y rest]; [exact Hx|].
  rewrite join_two. destruct x; [congruence | discriminate].
Qed.

Lemma paramsFormat_empty (json : object) : paramsFormat json = "" -> json = [].
Proof.
  destruct json as [|kv json]; [reflexivity|].
  unfold paramsFormat, URLSearchParams_toString, URLSearchParams_new.
  cbn [map]. intros H. now apply join_not_empty in H; [|apply pair_not_empty].
Qed.

(** X14.  [fetchRequest] requests the URL exactly as given if and only if
    [params.query] is missing or is an empty mapping: any entry, even one
    whose key and value are empty, changes the URL. *)
Theorem url_unchanged_iff_no_query (url : string) (params : Params) :
  fetchRequest_url url params = url
  <-> (p_query params = None \/ p_query params = Some []).
Proof.
  unfold fetchRequest_url. split.
  - destruct (p_query params) as [q|]; [|now left].
    intros H. right. f_equal. apply paramsFormat_empty.
    destruct (paramsFormat q) as [|c qs] eqn:Hq; [reflexivity|].
    cbn [truthy Str.is_empty negb] in H. symmetry in H.
    apply app_nonempty_neq in H; [contradiction | discriminate].
  - intros [-> | ->]; [reflexivity|]. cbn. apply append_empty.
Qed.

(** Cutting at a separator that occurs in neither left part. *)
Lemma split_unique (sep : ascii) (a a' b b' : list ascii) :
  ~ In sep a -> ~ In sep a' ->
  (a ++ sep :: b = a' ++ sep :: b')%list ->
  a = a' /\ b = b'.
Proof.
  revert a'. induction a as [|c a IH]; intros [|c' a'] Ha Ha' H;
    cbn in H; inversion H; subst.
  - auto.
  - exfalso. apply Ha'. now left.
  - exfalso. apply Ha. now left.
  - destruct (IH a') as [-> ->]; auto.
    + intros Hin. apply Ha. now right.
    + intros Hin. apply Ha'. now right.
Qed.

Lemma pair_inj (kv kv' : string * string) :
  URLSearchParams_pair kv = URLSearchParams_pair kv' -> kv = kv'.
Proof.
  intros H. apply (f_equal Str.chars) in H. rewrite !chars_pair in H.
  apply split_unique in H as [Hk Hv];
    try (apply separator_not_in_component; reflexivity).
  apply chars_inj, urlencoded_inj in Hk. apply chars_inj, urlencoded_inj in Hv.
  destruct kv, kv'. cbn in *. congruence.
Qed.

Lemma pair_has_no_ampersand (kv : string * string) :
  ~ In "&"%char (Str.chars (URLSearchParams_pair kv)).
Proof.
  rewrite chars_pair. intros H. apply in_app_or in H as [H | [H | H]].
  - revert H. now apply separator_not_in_component.
  - discriminate.
  - revert H. now apply separator_not_in_component.
Qed.

Lemma toString_inj (l l' : URLSearchParams) :
  URLSearchParams_toString l = URLSearchParams_toString l' -> l = l'.
Proof.
  unfold URLSearchParams_toString. revert l'.
  induction l as [|kv l IH]; intros [|kv' l'] H; cbn [map] in H.
  - reflexivity.
  - symmetry in H. now apply join_not_empty in H; [|apply pair_not_empty].
  - now apply join_not_empty in H; [|apply pair_not_empty].
  - destruct l as [|kv2 l], l' as [|kv2' l']; cbn [map] in H.
    + apply pair_inj in H. now subst.
    + exfalso. apply (pair_has_no_ampersand kv).
      change (Str.join "&" [URLSearchParams_pair kv])
        with (URLSearchParams_pair kv) in H.
      rewrite H, chars_join_more.
      apply in_or_app. right. now left.
    + exfalso. apply (pair_has_no_ampersand kv').
      change (Str.join "&" [URLSearchParams_pair kv'])
        with (URLSearchParams_pair kv') in H.
      rewrite <- H, chars_join_more.
      apply in_or_app. right. now left.
    + apply (f_equal Str.chars) in H. rewrite !chars_join_more in H.
      apply split_unique in H as [Hkv Hrest];
        try apply pair_has_no_ampersand.
      apply chars_inj, pair_inj in Hkv. apply chars_inj in Hrest.
      subst. f_equal. now apply IH.
Qed.

(** X15.  The query string loses nothing: two mappings are formatted to the
    same string only if they have the same keys, in the same order, with
    values that print to the same text.  A key or value containing [&],
    [=], [+] or [%] is never confused with another one. *)
Theorem paramsFormat_injective (j1 j2 : object) :
  paramsFormat j1 = paramsFormat j2 ->
  URLSearchParams_new j1 = URLSearchParams_new j2.
Proof. unfold paramsFormat. apply toString_inj. Qed.

Lemma paramsFormat_injective_witness :
  paramsFormat [("a&b", Num 1)] = paramsFormat [("a&b", Text "1")]
  /\ URLSearchParams_new [("a&b", Num 1)]
     = URLSearchParams_new [("a&b", Text "1")].
Proof.
  split; [reflexivity|].
  exact (paramsFormat_injective [("a&b", Num 1)] [("a&b", Text "1")]
           eq_refl).
Defined.

End QueryStringFacts.

(* ================================================================= *)
(** ** Names and timers *)

Module NameAndTimerFacts.

Import StrFacts RequestFacts DownloadFacts.

(** A text without a percent sign decodes to itself. *)
Lemma Decode_plain (l : list ascii) :
  ~ In "%"%char l -> Decode [] 0 l = Some l.
Proof.
  induction l as [|c l IH]; intros Hno; [reflexivity|].
  cbn [Decode]. destruct (Ascii.eqb_spec c "%"%char) as [->|_].
  - exfalso. apply Hno. now left.
  - rewrite IH; [reflexivity|]. intros Hin. apply Hno. now right.
Qed.

Lemma decodeURI_plain (v : string) :
  ~ In "%"%char (Str.chars v) -> decodeURI (Text v) = Normal v.
Proof.
  intros Hno. unfold decodeURI. cbn [ToString]. rewrite (Decode_plain _ Hno).
  unfold Str.of_chars, Str.chars. now rewrite string_of_list_ascii_of_string.
Qed.

(** X16.  The name of the saved file is the whole value of the
    Content-Disposition header, not its [filename] parameter: a value that
    is not empty and has no percent sign is taken letter for letter. *)
Theorem plain_disposition_is_the_name (res : Response) (now : Z)
  (v : string) :
  Headers_get (res_headers res) "Content-Disposition" = Normal (Text v) ->
  v <> "" ->
  ~ In "%"%char (Str.chars v) ->
  download_fileName res now = Normal (Text v).
Proof.
  intros Hget Hne Hno.
  exact (download_fileName_present res now v v Hget (decodeURI_plain v Hno)
           Hne).
Qed.

Lemma plain_disposition_is_the_name_witness :
  let v := "attachment; filename=report.csv" in
  let res := Samples.response 200 true [("content-disposition", v)] in
  Headers_get (res_headers res) "Content-Disposition" = Normal (Text v)
  /\ v <> ""
  /\ ~ In "%"%char (Str.chars v)
  /\ download_fileName res 0 = Normal (Text v).
Proof.
  assert (Hno : ~ In "%"%char
                  (Str.chars "attachment; filename=report.csv")).
  { cbn. intros H.
    repeat (destruct H as [H | H]; [discriminate|]). exact H. }
  split; [reflexivity|]. split; [discriminate|]. split; [exact Hno|].
  exact (plain_disposition_is_the_name
           (Samples.response 200 true
              [("content-disposition", "attachment; filename=report.csv")])
           0 "attachment; filename=report.csv" eq_refl
           (fun H => match H in _ = s
                           return match s with
                                  | EmptyString => False
                                  | String _ _ => True
                                  end
                     with eq_refl => I end)
           Hno).
Defined.



End NameAndTimerFacts.
